(** * perftest: the parallel PUT benchmark driver

    A shallow embedding of [parallel-upload-download/parallel-put.go]
    (the record-line variant, with the NODE identifier) and of its
    sibling revision (the human-readable variant), together with the
    properties of the benchmark driver.

    Conventions.
    - Go's [int] is the 64-bit two's complement integer of the usual
      targets (amd64, arm64): a [Z] with the wrap-around written out.
    - Go's [float64] is IEEE 754 binary64: [spec_float] with precision 53
      and [emax] 1024, every operation rounding to nearest even.
    - Strings are byte strings; [len] is [String.length].
    - Memory is unbounded: a slice of any non-negative length can be made. *)

From Stdlib Require Import ZArith List String Ascii Bool Lia.
From Stdlib Require Import SpecFloat DecimalString DecimalZ.
From stdpp Require Import base gmap strings list.

Local Open Scope string_scope.
Local Open Scope list_scope.
Local Open Scope Z_scope.

(** ** Go's [int] *)

Module GoInt.

Definition intSize : Z := 64.
Definition minInt : Z := - 2 ^ 63.
Definition maxInt : Z := 2 ^ 63 - 1.

Definition in_range (z : Z) : Prop := minInt <= z <= maxInt.

Definition in_rangeb (z : Z) : bool := (minInt <=? z) && (z <=? maxInt).

(** The value an arithmetic result takes once truncated to 64 bits. *)
Definition wrap (z : Z) : Z := (z + 2 ^ 63) mod 2 ^ 64 - 2 ^ 63.

Definition add (a b : Z) : Z := wrap (a + b).
Definition mul (a b : Z) : Z := wrap (a * b).

End GoInt.

(** ** [strconv.Atoi] *)

Inductive NumError : Type :=
| ErrSyntax
| ErrRange.

Definition digit_of (a : ascii) : option Z :=
  let n := Z.of_N (N_of_ascii a) in
  if (48 <=? n) && (n <=? 57) then Some (n - 48) else None.

(** [ParseUint] in base 10 at bit size 64: the digits are folded from the
    left, a byte that is not a digit is a syntax error and a value past
    [2^64 - 1] a range error, whichever comes first. *)
Fixpoint parse_digits (s : string) (acc : Z) : Z + NumError :=
  match s with
  | EmptyString => inl acc
  | String a rest =>
      match digit_of a with
      | None => inr ErrSyntax
      | Some d =>
          let n := acc * 10 + d in
          if 2 ^ 64 - 1 <? n then inr ErrRange else parse_digits rest n
      end
  end.

Definition Atoi (s : string) : Z + NumError :=
  match s with
  | EmptyString => inr ErrSyntax
  | String a rest =>
      let neg := Ascii.eqb a "-" in
      let body := if neg || Ascii.eqb a "+" then rest else s in
      match body with
      | EmptyString => inr ErrSyntax
      | _ =>
          match parse_digits body 0 with
          | inr e => inr e
          | inl un =>
              if neg then
                if 2 ^ 63 <? un then inr ErrRange else inl (- un)
              else
                if 2 ^ 63 <=? un then inr ErrRange else inl un
          end
      end
  end.

(** ** [fmt.Sprintf] with the verbs the driver uses *)

(** [%d] of an [int]. *)
Definition fmt_d (z : Z) : string := NilZero.string_of_int (Z.to_int z).

(** [fmt.Sprintf("object-%s-%d", nodeNumber, n)] *)
Definition Sprintf_object_node (nodeNumber : string) (n : Z) : string :=
  "object-" +:+ nodeNumber +:+ "-" +:+ fmt_d n.

(** [fmt.Sprintf("object%d", n)] *)
Definition Sprintf_object (n : Z) : string := "object" +:+ fmt_d n.

(** [fmt.Sprintf("%s-%v", "test-metadata-key", i)] *)
Definition Sprintf_meta_key (i : Z) : string :=
  "test-metadata-key" +:+ "-" +:+ fmt_d i.

(** ** Object names

    [for i := 0; i < conc; i++ { objectNames = append(objectNames, name(i+1)) }]
    with the loop state [(i, objectNames)]; [Z.to_nat conc] iterations are
    all the guard [i < conc] lets through. *)

Fixpoint objectNames_loop (name : Z -> string) (fuel : nat) (conc i : Z)
    (objectNames : list string) : list string :=
  match fuel with
  | O => objectNames
  | S fuel' =>
      if i <? conc
      then objectNames_loop name fuel' conc (GoInt.add i 1)
             (objectNames ++ [name (GoInt.add i 1)])%list
      else objectNames
  end.

Definition gen_objectNames (name : Z -> string) (conc : Z) : list string :=
  objectNames_loop name (Z.to_nat conc) conc 0 [].

(** ** Calls that may panic

    A loop that may not end takes fuel and answers [None] when it runs
    out. *)

Inductive result (A : Type) : Type :=
| Ok (a : A)
| Panic (msg : string).

Arguments Ok {A} a.
Arguments Panic {A} msg.

(** ** Constants of the driver *)

(** Change this value to test with a different object size. *)
Definition defaultObjectSize : Z := 10 * 1024 * 1024.
Definition defaultMetaCount : Z := 1.
Definition defaultMetaSize : Z := 1024.

(** ** The payload: [bytes.Repeat] *)

Definition bytes_Repeat (b : list Byte.byte) (count : Z)
    : result (list Byte.byte) :=
  if count =? 0 then Ok []
  else if count <? 0 then Panic "bytes: negative Repeat count"
  else if GoInt.maxInt <? Z.of_nat (length b) * count
  then Panic "bytes: Repeat output length overflow"
  else Ok (concat (replicate (Z.to_nat count) b)).

(** [[]byte("a")] *)
Definition filler : list Byte.byte := [Byte.x61].

(** ** Metadata *)

Definition letterBytes : string :=
  "abcdefghijklmnopqrstuvwxyzABCDEFGHIJKLMNOPQRSTUVWXYZ".

(** The pseudo-random source is a sequence of draws and a cursor into it;
    [rand.Intn n] reduces the next draw into [0, n). *)
Definition rand_Intn (draws : nat -> Z) (cursor : nat) (n : Z) : Z :=
  draws cursor mod n.

(** [letterBytes[k]] *)
Definition letter_at (k : Z) : ascii :=
  match String.get (Z.to_nat k) letterBytes with
  | Some a => a
  | None => Ascii.zero
  end.

(** [for i := range b { b[i] = letterBytes[rand.Intn(len(letterBytes))] }] *)
Fixpoint randStringBytes_fill (draws : nat -> Z) (cursor n : nat) : string :=
  match n with
  | O => EmptyString
  | S n' =>
      String (letter_at (rand_Intn draws cursor (Z.of_nat (String.length letterBytes))))
             (randStringBytes_fill draws (S cursor) n')
  end.

(** [make([]byte, n)] panics on a negative length. *)
Definition randStringBytes (draws : nat -> Z) (cursor : nat) (n : Z)
    : result (string * nat) :=
  if n <? 0 then Panic "makeslice: len out of range"
  else Ok (randStringBytes_fill draws cursor (Z.to_nat n),
           (cursor + Z.to_nat n)%nat).

(** The map of [uploadBlob] in [parallel-put.go]. Every entry holds the
    address of the one [metadataValue]; the string behind it is never
    written again, so the entry is modelled by that string.

      [for i := 1; i <= metaCount; i++ { key = ...; meta[key] = &metadataValue }] *)
Fixpoint meta_loop (fuel : nat) (metaCount i : Z) (metadataValue : string)
    (meta : gmap string string) : option (gmap string string) :=
  match fuel with
  | O => None
  | S fuel' =>
      if i <=? metaCount
      then meta_loop fuel' metaCount (GoInt.add i 1) metadataValue
             (<[Sprintf_meta_key i := metadataValue]> meta)
      else Some meta
  end.

Definition uploadBlob_meta (fuel : nat) (draws : nat -> Z) (cursor : nat)
    (metaCount metaSize : Z) : option (result (gmap string string * nat)) :=
  match randStringBytes draws cursor metaSize with
  | Ok (metadataValue, cursor') =>
      match meta_loop fuel metaCount 1 metadataValue ∅ with
      | Some meta => Some (Ok (meta, cursor'))
      | None => None
      end
  | Panic msg => Some (Panic msg)
  end.

(** The same loop in the sibling revision. It does not type-check as Go
    ([metaCount] is an [int] and has no field [Value]; the map is declared
    with [string] values and given [*string]); it is read here with
    [metaCount.Value] as [metaCount]:

      [for n := 0; n <= metaCount.Value; n++ {
         var metadataValue = RandStringBytes(1024)
         meta[fmt.Sprintf("%s-%v", "test-metadata-key", metaCount)] = aws.String(metadataValue) }] *)
Fixpoint meta_loop_sibling (fuel : nat) (draws : nat -> Z) (cursor : nat)
    (metaCount n : Z) (meta : gmap string string)
    : option (gmap string string * nat) :=
  match fuel with
  | O => None
  | S fuel' =>
      if n <=? metaCount
      then
        let metadataValue := randStringBytes_fill draws cursor 1024 in
        meta_loop_sibling fuel' draws (cursor + 1024)%nat metaCount
          (GoInt.add n 1)
          (<[Sprintf_meta_key metaCount := metadataValue]> meta)
      else Some (meta, cursor)
  end.

Definition uploadBlob_meta_sibling (fuel : nat) (draws : nat -> Z)
    (cursor : nat) (metaCount : Z)
    : option (result (gmap string string * nat)) :=
  match meta_loop_sibling fuel draws cursor metaCount 0 ∅ with
  | Some r => Some (Ok r)
  | None => None
  end.

(** ** [float64] *)

Module F64.

Definition prec : Z := 53.
Definition emax : Z := 1024.

(** [float64(z)] of an integer: the nearest binary64, ties to even. *)
Definition of_int (z : Z) : spec_float := binary_normalize prec emax z 0 false.

Definition div (x y : spec_float) : spec_float := SFdiv prec emax x y.

(** A normal number: the mantissa has all 53 bits. *)
Definition is_normal (x : spec_float) : bool :=
  match x with
  | S754_finite _ m e => (Z.pos (digits2_pos m) =? prec) && (e <=? emax - prec)
  | _ => false
  end.

(** The exponent of the last mantissa bit, for a finite number. *)
Definition exponent (x : spec_float) : Z :=
  match x with S754_finite _ _ e => e | _ => 0 end.

End F64.

(** ** The statistics of [main] *)

(** [time.Second], in nanoseconds. *)
Definition time_Second : Z := 1000000000.

(** [seconds := float64(elapsed) / float64(time.Second)] *)
Definition seconds (elapsed : Z) : spec_float :=
  F64.div (F64.of_int elapsed) (F64.of_int time_Second).

(** [totalSize := conc * *objectSize] *)
Definition totalSize (conc objectSize : Z) : Z := GoInt.mul conc objectSize.

(** [float64(conc)/seconds] *)
Definition speed (conc : Z) (secs : spec_float) : spec_float :=
  F64.div (F64.of_int conc) secs.

(** [float64(totalSize)/seconds/1024/1024] *)
Definition bandwidth (conc objectSize : Z) (secs : spec_float) : spec_float :=
  F64.div
    (F64.div (F64.div (F64.of_int (totalSize conc objectSize)) secs)
             (F64.of_int 1024))
    (F64.of_int 1024).

(** The two formulas as the specification words them, in binary64:
    [concurrency / elapsed_seconds] and
    [(concurrency × size) / elapsed_seconds / 1048576], the product being
    the product of the integers. *)
Definition spec_throughput (c : Z) (e : spec_float) : spec_float :=
  F64.div (F64.of_int c) e.

Definition spec_bandwidth (c s : Z) (e : spec_float) : spec_float :=
  F64.div (F64.div (F64.of_int (c * s)) e) (F64.of_int 1048576).

(** ** Formatting: [%f], [time.Duration] and [time.Time] *)

Definition zeros (n : nat) : string := string_of_list_ascii (repeat "0"%char n).

(** [appendInt(b, x, width)]: a sign, then the magnitude padded with zeros. *)
Definition appendInt (x : Z) (width : nat) : string :=
  let digits := fmt_d (Z.abs x) in
  (if x <? 0 then "-" else "")
    +:+ zeros (width - String.length digits) +:+ digits.

(** The integer nearest to [n / d], ties to even ([0 <= n], [0 < d]). *)
Definition round_half_even (n d : Z) : Z :=
  let q := n / d in
  match 2 * (n mod d) ?= d with
  | Lt => q
  | Gt => q + 1
  | Eq => if Z.even q then q else q + 1
  end.

Definition pad_left (width : nat) (s : string) : string :=
  string_of_list_ascii (repeat " "%char (width - String.length s)) +:+ s.

(** [%<width>.<digits>f] of a [float64]. *)
Definition fmt_f (width digits : nat) (x : spec_float) : string :=
  let scale := 10 ^ Z.of_nat digits in
  let fixed (s : bool) (n : Z) :=
    (if s then "-" else "") +:+ fmt_d (n / scale)
      +:+ (if digits is O then "" else "." +:+ appendInt (n mod scale) digits) in
  pad_left width
    match x with
    | S754_nan => "NaN"
    | S754_infinity s => if s then "-Inf" else "+Inf"
    | S754_zero s => fixed s 0
    | S754_finite s m e =>
        fixed s (if 0 <=? e then Z.pos m * 2 ^ e * scale
                 else round_half_even (Z.pos m * scale) (2 ^ (- e)))
    end.

Definition digit_char (d : Z) : ascii := ascii_of_N (Z.to_N (48 + d)).

(** [fmtFrac]: the last [prec] decimal digits of [v] as a fraction, trailing
    zeros and an empty fraction dropped, and [v / 10^prec]. *)
Fixpoint fmtFrac (prec : nat) (v : Z) (print : bool) (acc : string)
    : string * Z :=
  match prec with
  | O => (if print then String "." acc else acc, v)
  | S prec' =>
      let digit := v mod 10 in
      let print := print || negb (digit =? 0) in
      fmtFrac prec' (v / 10) print
        (if print then String (digit_char digit) acc else acc)
  end.

(** [time.Duration.String] of a count of nanoseconds. *)
Definition Duration_String (d : Z) : string :=
  let u := Z.abs d in
  let micro := String (ascii_of_N 194) (String (ascii_of_N 181) "s") in
  let body :=
    if u <? time_Second then
      if u =? 0 then "0s"
      else if u <? 1000 then fmt_d u +:+ "ns"
      else if u <? 1000000 then
        let '(f, v) := fmtFrac 3 u false "" in fmt_d v +:+ f +:+ micro
      else
        let '(f, v) := fmtFrac 6 u false "" in fmt_d v +:+ f +:+ "ms"
    else
      let '(f, v) := fmtFrac 9 u false "" in
      let s := fmt_d (v mod 60) +:+ f +:+ "s" in
      let v := v / 60 in
      if 0 <? v then
        let s := fmt_d (v mod 60) +:+ "m" +:+ s in
        let v := v / 60 in
        if 0 <? v then fmt_d v +:+ "h" +:+ s else s
      else s in
  if d <? 0 then "-" +:+ body else body.

(** A [time.Time]: an instant in nanoseconds since the Unix epoch, read in
    a location that lies [zone] seconds east of UTC. *)
Record Time : Type := { wall : Z; zone : Z }.

(** [t.UTC()] *)
Definition Time_UTC (t : Time) : Time := {| wall := wall t; zone := 0 |}.

(** Year, month and day of a count of days since 1970-01-01. *)
Definition civil_from_days (days : Z) : Z * Z * Z :=
  let z := days + 719468 in
  let era := z / 146097 in
  let doe := z - era * 146097 in
  let yoe := (doe - doe / 1460 + doe / 36524 - doe / 146096) / 365 in
  let doy := doe - (365 * yoe + yoe / 4 - yoe / 100) in
  let mp := (5 * doy + 2) / 153 in
  let d := doy - (153 * mp + 2) / 5 + 1 in
  let m := if mp <? 10 then mp + 3 else mp - 9 in
  (yoe + era * 400 + (if m <=? 2 then 1 else 0), m, d).

(** [t.Format("2006-01-02T15:04:05.000Z")]: the date and the clock of [t]
    in its own location, the milliseconds cut (not rounded) from the
    nanoseconds, and the letter Z, which the layout holds as plain text
    (a zone is only printed for [Z07:00] and the like). *)
Definition Time_Format (t : Time) : string :=
  let sec := wall t / time_Second + zone t in
  let nsec := wall t mod time_Second in
  let '(year, month, day) := civil_from_days (sec / 86400) in
  let clock := sec mod 86400 in
  appendInt year 4 +:+ "-" +:+ appendInt month 2 +:+ "-" +:+ appendInt day 2
    +:+ "T" +:+ appendInt (clock / 3600) 2
    +:+ ":" +:+ appendInt (clock mod 3600 / 60) 2
    +:+ ":" +:+ appendInt (clock mod 60) 2
    +:+ "." +:+ appendInt (nsec / 1000000) 3 +:+ "Z".

(** ** The two revisions of the driver *)

Inductive Variant : Type :=
| RecordLine      (* parallel-put.go: NODE in the names, one record line *)
| HumanReadable.  (* the sibling revision: three lines of text *)

(** [&s3manager.UploadInput{Body, Bucket, Key, Metadata}] *)
Record UploadInput : Type := {
  Body : list Byte.byte;
  Bucket : string;
  Key : string;
  Metadata : gmap string string
}.

(** What a run is given: the environment, the parsed flags, the random
    draws, the answer of the object store to each upload ([None] for a nil
    error), the zone of the machine and the three readings of the clock. *)
Record World : Type := {
  Getenv : string -> string;            (* empty for an unset variable *)
  arg_size : option Z;                  (* -size, when given *)
  arg_meta_count : option Z;            (* -meta-count, when given *)
  arg_meta_size : option Z;             (* -meta-size, when given *)
  draws : nat -> Z;
  Upload : UploadInput -> option string;
  localZone : Z;
  clock_start : Z;                      (* time.Now() before the uploads *)
  clock_elapsed : Z;                    (* time.Since(start) *)
  clock_end : Z                         (* time.Now() when printing *)
}.

(** [flag.Int(name, value, usage)] after [flag.Parse()]. *)
Definition flag_Int (arg : option Z) (value : Z) : Z :=
  match arg with
  | Some z => z
  | None => value
  end.

Definition objectSize (w : World) : Z := flag_Int (arg_size w) defaultObjectSize.
Definition metaCount (w : World) : Z := flag_Int (arg_meta_count w) defaultMetaCount.
Definition metaSize (w : World) : Z := flag_Int (arg_meta_size w) defaultMetaSize.

(** [time.Now()]: the instant, in the zone of the machine. *)
Definition time_Now (w : World) (instant : Z) : Time :=
  {| wall := instant; zone := localZone w |}.

Definition newline : string := String (ascii_of_N 10) EmptyString.

(** The fields of the record line, in the order of the arguments of
    [fmt.Printf("PUT;%s;%s;%d;%d;%d;%s;%f;%f;%s;%s\n", ...)]. *)
Definition report_fields (w : World) (conc : Z) : list string :=
  let nodeNumber := Getenv w "NODE" in
  let concurrency := Getenv w "CONCURRENCY" in
  let start := Time_UTC (time_Now w (clock_start w)) in
  let elapsed := clock_elapsed w in
  let secs := seconds elapsed in
  [ nodeNumber; concurrency; fmt_d (objectSize w); fmt_d (metaCount w);
    fmt_d (metaSize w); Duration_String elapsed;
    fmt_f 0 6 (speed conc secs);
    fmt_f 0 6 (bandwidth conc (objectSize w) secs);
    Time_Format start;
    Time_Format (time_Now w (clock_end w)) ].

(** What [main] writes to standard output once the uploads are over. *)
Definition report (v : Variant) (w : World) (conc : Z) : list string :=
  match v with
  | RecordLine =>
      [ String.concat ";" ("PUT" :: report_fields w conc) +:+ newline ]
  | HumanReadable =>
      let elapsed := clock_elapsed w in
      let secs := seconds elapsed in
      [ "Elapsed time : " +:+ Duration_String elapsed +:+ newline;
        "Speed        : " +:+ fmt_f 4 0 (speed conc secs)
          +:+ " objs/sec" +:+ newline;
        "Bandwidth    : " +:+ fmt_f 4 0 (bandwidth conc (objectSize w) secs)
          +:+ " MBit/sec" +:+ newline ]
  end.

(** The name of the object of index [n]. *)
Definition object_name (v : Variant) (w : World) (n : Z) : string :=
  match v with
  | RecordLine => Sprintf_object_node (Getenv w "NODE") n
  | HumanReadable => Sprintf_object n
  end.

(** ** What a run does, in order *)

Inductive Event : Type :=
| EvFatal (e : NumError)        (* log.Fatalln(err) *)
| EvAppend (name : string)      (* objectNames = append(objectNames, name) *)
| EvRepeat (count : Z)          (* bytes.Repeat([]byte("a"), count) *)
| EvGo (name : string)          (* wg.Add(1); go func(name) *)
| EvUpload (input : UploadInput)(* uploader.Upload(input) *)
| EvPanic (msg : string)        (* panic in a goroutine *)
| EvPrint (line : string)       (* a line on standard output *)
| EvExit (code : Z).            (* the process ends *)

(** [main] from [flag.Parse()] to the payload. *)
Inductive Setup : Type :=
| Fatal (e : NumError)
| Crashed (msg : string)
| Ready (conc : Z) (objectNames : list string) (data : list Byte.byte).

Definition main_setup (v : Variant) (w : World) : list Event * Setup :=
  let concurrency := Getenv w "CONCURRENCY" in
  match Atoi concurrency with
  | inr err => ([EvFatal err; EvExit 1], Fatal err)
  | inl conc =>
      let objectNames := gen_objectNames (object_name v w) conc in
      let tr := ((EvAppend <$> objectNames) ++ [EvRepeat (objectSize w)])%list in
      match bytes_Repeat filler (objectSize w) with
      | Panic msg => ((tr ++ [EvPanic msg; EvExit 2])%list, Crashed msg)
      | Ok data => (tr, Ready conc objectNames data)
      end
  end.

(** ** [parallelUploads] and the end of [main]: the goroutines

    One goroutine per object name runs
      [defer wg.Done(); if err := uploadBlob(...); err != nil { panic(err) }]
    while [main] launches the rest, waits on the [WaitGroup], prints and
    returns. The process is a transition system over the interleavings. *)

Inductive Task : Type :=
| TRun (name : string)        (* launched, [uploadBlob] has not returned *)
| TDone                       (* returned nil; the deferred [wg.Done()] ran *)
| TPanicking (msg : string).  (* panicked: the deferred [wg.Done()] ran, the
                                 runtime has yet to end the process *)

Inductive MainPc : Type :=
| Launching (rest : list string)  (* in the [range objectNames] loop *)
| Waiting                         (* in [wg.Wait()] *)
| Reporting                       (* past [wg.Wait()] *)
| Returned.

Record Proc : Type := {
  trace : list Event;
  pc : MainPc;
  tasks : list Task;
  wg : Z;                (* the counter of the WaitGroup *)
  cursor : nat;          (* the draws of the random source used so far *)
  exited : option Z      (* the exit status, once the process has ended *)
}.

(** The metadata part of [uploadBlob], per revision. *)
Definition uploadBlob_metadata (v : Variant) (fuel : nat) (w : World)
    (cur : nat) : option (result (gmap string string * nat)) :=
  match v with
  | RecordLine => uploadBlob_meta fuel (draws w) cur (metaCount w) (metaSize w)
  | HumanReadable => uploadBlob_meta_sibling fuel (draws w) cur (metaCount w)
  end.

Definition upload_input (w : World) (data : list Byte.byte) (name : string)
    (meta : gmap string string) : UploadInput :=
  {| Body := data; Bucket := Getenv w "BUCKET"; Key := name;
     Metadata := meta |}.

Definition is_panicking (t : Task) : bool :=
  match t with TPanicking _ => true | _ => false end.

Definition is_running (t : Task) : bool :=
  match t with TRun _ => true | _ => false end.

Section Process.

Variable v : Variant.
Variable w : World.
Variable conc : Z.
Variable data : list Byte.byte.

Inductive step : Proc -> Proc -> Prop :=
| step_go p name rest :
    exited p = None -> pc p = Launching (name :: rest) ->
    step p {| trace := trace p ++ [EvGo name]; pc := Launching rest;
              tasks := tasks p ++ [TRun name]; wg := wg p + 1;
              cursor := cursor p; exited := None |}
| step_launched p :
    exited p = None -> pc p = Launching [] ->
    step p {| trace := trace p; pc := Waiting; tasks := tasks p;
              wg := wg p; cursor := cursor p; exited := None |}
| step_upload_ok p i name fuel meta cur :
    exited p = None -> tasks p !! i = Some (TRun name) ->
    uploadBlob_metadata v fuel w (cursor p) = Some (Ok (meta, cur)) ->
    Upload w (upload_input w data name meta) = None ->
    step p {| trace := trace p ++ [EvUpload (upload_input w data name meta)];
              pc := pc p; tasks := <[i := TDone]> (tasks p);
              wg := wg p - 1; cursor := cur; exited := None |}
| step_upload_err p i name fuel meta cur err :
    exited p = None -> tasks p !! i = Some (TRun name) ->
    uploadBlob_metadata v fuel w (cursor p) = Some (Ok (meta, cur)) ->
    Upload w (upload_input w data name meta) = Some err ->
    step p {| trace := trace p ++ [EvUpload (upload_input w data name meta);
                                   EvPanic err];
              pc := pc p; tasks := <[i := TPanicking err]> (tasks p);
              wg := wg p - 1; cursor := cur; exited := None |}
| step_upload_panic p i name fuel msg :
    exited p = None -> tasks p !! i = Some (TRun name) ->
    uploadBlob_metadata v fuel w (cursor p) = Some (Panic msg) ->
    step p {| trace := trace p ++ [EvPanic msg];
              pc := pc p; tasks := <[i := TPanicking msg]> (tasks p);
              wg := wg p - 1; cursor := cursor p; exited := None |}
| step_abort p i msg :
    exited p = None -> tasks p !! i = Some (TPanicking msg) ->
    step p {| trace := trace p ++ [EvExit 2]; pc := pc p; tasks := tasks p;
              wg := wg p; cursor := cursor p; exited := Some 2 |}
| step_wait p :
    exited p = None -> pc p = Waiting -> wg p = 0 ->
    step p {| trace := trace p; pc := Reporting; tasks := tasks p;
              wg := wg p; cursor := cursor p; exited := None |}
| step_report p :
    exited p = None -> pc p = Reporting ->
    step p {| trace := trace p ++ (EvPrint <$> report v w conc);
              pc := Returned; tasks := tasks p;
              wg := wg p; cursor := cursor p; exited := None |}
| step_return p :
    (* when [main] returns during a panic the runtime lets the panic end
       the process *)
    exited p = None -> pc p = Returned ->
    forallb (fun t => negb (is_panicking t)) (tasks p) = true ->
    step p {| trace := trace p ++ [EvExit 0]; pc := pc p; tasks := tasks p;
              wg := wg p; cursor := cursor p; exited := Some 0 |}.

End Process.

(** The process when [parallelUploads] is called. *)
Definition launch (tr : list Event) (objectNames : list string) : Proc :=
  {| trace := tr; pc := Launching objectNames; tasks := []; wg := 0;
     cursor := 0; exited := None |}.

(** The states a run of the program goes through after a setup that
    reached the payload. *)
Definition reachable (v : Variant) (w : World) (p : Proc) : Prop :=
  exists tr conc objectNames data,
    main_setup v w = (tr, Ready conc objectNames data) /\
    rtc (step v w conc data) (launch tr objectNames) p.

(** ** Reading a trace *)

Definition is_append (e : Event) : bool :=
  match e with EvAppend _ => true | _ => false end.

(** The counts [bytes.Repeat] was called with in a trace, in order. *)
Definition repeats (tr : list Event) : list Z :=
  omap (fun e => match e with EvRepeat count => Some count | _ => None end) tr.

(** The answers of the object store to the uploads a trace holds. *)
Definition upload_results (w : World) (tr : list Event) : list (option string) :=
  omap (fun e => match e with
                 | EvUpload input => Some (Upload w input)
                 | _ => None
                 end) tr.

(** The object names a trace appended, in order. *)
Definition appended (tr : list Event) : list string :=
  omap (fun e => match e with EvAppend name => Some name | _ => None end) tr.

(** The inputs of the uploads a trace made, in order. *)
Definition uploads (tr : list Event) : list UploadInput :=
  omap (fun e => match e with EvUpload input => Some input | _ => None end) tr.

(** The lines a trace printed, in order. *)
Definition stdout (tr : list Event) : list string :=
  omap (fun e => match e with EvPrint line => Some line | _ => None end) tr.

(** ** Reading a process *)

(** The number of goroutines whose [uploadBlob] has not returned. *)
Fixpoint running (ts : list Task) : Z :=
  match ts with
  | [] => 0
  | t :: ts' => (if is_running t then 1 else 0) + running ts'
  end.

(** An upload input as [uploadBlob] builds it: the payload of the setup,
    the bucket of the environment, an object name and the metadata map. *)
Definition sent (v : Variant) (w : World) (data : list Byte.byte)
    (input : UploadInput) : Prop :=
  exists name fuel cur meta cur',
    uploadBlob_metadata v fuel w cur = Some (Ok (meta, cur')) /\
    input = upload_input w data name meta.

(** What [parallelUploads] and the rest of [main] may add to a trace:
    launches, uploads, panics, lines and the exit. *)
Definition run_event (v : Variant) (w : World) (data : list Byte.byte)
    (e : Event) : Prop :=
  match e with
  | EvUpload input => sent v w data input
  | EvGo _ | EvPanic _ | EvPrint _ | EvExit _ => True
  | EvFatal _ | EvAppend _ | EvRepeat _ => False
  end.

(** A process without goroutines: [main] alone, [out] written so far. *)
Definition alone (tr out : list Event) (at_pc : MainPc) (status : option Z)
    : Proc :=
  {| trace := tr ++ out; pc := at_pc; tasks := []; wg := 0; cursor := 0;
     exited := status |}.

(** Whether some goroutine is panicking. *)
Definition panicking (ts : list Task) : bool := existsb is_panicking ts.

(** What every state of a run satisfies: the counter of the [WaitGroup]
    counts the goroutines whose upload has not returned; [main] is past
    [wg.Wait()] only when there is none; the report is printed when [main] has returned and not before;
    the process ends with status 0 only after [main] returned with no
    goroutine panicking; and an upload that failed left its goroutine
    panicking. *)
Definition run_invariant (v : Variant) (w : World) (conc : Z) (p : Proc) : Prop :=
  wg p = running (tasks p) /\
  match pc p with
  | Reporting => running (tasks p) = 0 /\ stdout (trace p) = []
  | Returned => running (tasks p) = 0 /\ stdout (trace p) = report v w conc
  | _ => stdout (trace p) = []
  end /\
  (exited p = Some 0 -> pc p = Returned /\ panicking (tasks p) = false) /\
  (Forall (fun r => r = None) (upload_results w (trace p)) \/
   panicking (tasks p) = true).

(** ** Sample runs *)

(** A run without flags: the defaults of the driver. *)
Definition default_world (concurrency : string) : World :=
  {| Getenv := fun k => if String.eqb k "CONCURRENCY" then concurrency else "";
     arg_size := None;
     arg_meta_count := None;
     arg_meta_size := None;
     draws := fun n => Z.of_nat n;
     Upload := fun _ => None;
     localZone := 0;
     clock_start := 0;
     clock_elapsed := 1;
     clock_end := 1 |}.

(** A machine on UTC where every upload succeeds and the uploads take two
    seconds. *)
Definition sample_world (concurrency node : string) (size count msize : Z)
    : World :=
  {| Getenv := fun k =>
       if String.eqb k "CONCURRENCY" then concurrency
       else if String.eqb k "NODE" then node
       else if String.eqb k "BUCKET" then "bench"
       else "";
     arg_size := Some size;
     arg_meta_count := Some count;
     arg_meta_size := Some msize;
     draws := fun n => Z.of_nat n;
     Upload := fun _ => None;
     localZone := 0;
     clock_start := 1793424000123456789;
     clock_elapsed := 2000000000;
     clock_end := 1793424002123460000 |}.

(** The same machine with an object store that refuses every upload. *)
Definition failing_world (concurrency : string) : World :=
  let w := sample_world concurrency "1" 4 1 2 in
  {| Getenv := Getenv w; arg_size := arg_size w;
     arg_meta_count := arg_meta_count w; arg_meta_size := arg_meta_size w;
     draws := draws w;
     Upload := fun _ => Some "RequestError: send request failed";
     localZone := localZone w; clock_start := clock_start w;
     clock_elapsed := clock_elapsed w; clock_end := clock_end w |}.

(** The same machine one hour east of UTC. *)
Definition eastern_world (concurrency : string) : World :=
  let w := sample_world concurrency "1" 4 1 2 in
  {| Getenv := Getenv w; arg_size := arg_size w;
     arg_meta_count := arg_meta_count w; arg_meta_size := arg_meta_size w;
     draws := draws w; Upload := Upload w;
     localZone := 3600; clock_start := clock_start w;
     clock_elapsed := clock_elapsed w; clock_end := clock_end w |}.

(** The same machine with a clock that does not move during the run. *)
Definition still_world (concurrency : string) : World :=
  let w := sample_world concurrency "1" 4 1 2 in
  {| Getenv := Getenv w; arg_size := arg_size w;
     arg_meta_count := arg_meta_count w; arg_meta_size := arg_meta_size w;
     draws := draws w; Upload := Upload w;
     localZone := localZone w; clock_start := clock_start w;
     clock_elapsed := 0; clock_end := clock_start w |}.

(** ** Reading a string *)

(** How many times a byte occurs in a string. *)
Fixpoint count_char (c : ascii) (s : string) : nat :=
  match s with
  | EmptyString => 0
  | String a rest => (if Ascii.eqb a c then 1 else 0) + count_char c rest
  end.

(** An ASCII letter, of either case. *)
Definition is_letter (a : ascii) : bool :=
  let n := N_of_ascii a in
  ((65 <=? n)%N && (n <=? 90)%N) || ((97 <=? n)%N && (n <=? 122)%N).

(** Every byte of the string is an ASCII letter. *)
Fixpoint all_letters (s : string) : bool :=
  match s with
  | EmptyString => true
  | String a rest => is_letter a && all_letters rest
  end.

(** ** Reading a process against the object names *)

(** The object names for which a goroutine was launched, in order. *)
Definition launched (tr : list Event) : list string :=
  omap (fun e => match e with EvGo name => Some name | _ => None end) tr.


(** The object names whose upload has not returned. *)
Definition running_names (ts : list Task) : list string :=
  omap (fun t => match t with TRun name => Some name | _ => None end) ts.

(** The number of goroutines that returned from a successful upload. *)
Fixpoint done_count (ts : list Task) : nat :=
  match ts with
  | [] => 0
  | TDone :: ts' => S (done_count ts')
  | _ :: ts' => done_count ts'
  end.

(** The object names the launch loop of [parallelUploads] has yet to
    reach. *)
Definition to_launch (at_pc : MainPc) : list string :=
  match at_pc with
  | Launching rest => rest
  | _ => []
  end.

(** How the goroutines, the uploads and the object names of a run stand to
    each other: a goroutine was launched for each name the loop went past;
    the uploads made and the uploads under way are for distinct launches;
    and each goroutine that returned has made its upload. *)
Definition names_invariant (names : list string) (p : Proc) : Prop :=
  launched (trace p) ++ to_launch (pc p) = names /\
  length (tasks p) = length (launched (trace p)) /\
  (Key <$> uploads (trace p)) ++ running_names (tasks p) ⊆+ launched (trace p) /\
  (done_count (tasks p) <= length (uploads (trace p)))%nat.

(** ** A sample run of two uploads *)

(** The metadata map a goroutine builds from the random draws at [cur]. *)
Definition sample_meta (w : World) (cur : nat) : gmap string string :=
  match uploadBlob_metadata RecordLine 2 w cur with
  | Some (Ok (meta, _)) => meta
  | _ => ∅
  end.

(** The end of a run of [parallel-put.go] with [CONCURRENCY=2], [NODE=7],
    four bytes of payload, one metadata entry of two letters: the second
    upload returned before the first. *)
Definition sample_run_end : Proc :=
  let w := sample_world "2" "7" 4 1 2 in
  let data := [Byte.x61; Byte.x61; Byte.x61; Byte.x61] in
  {| trace :=
       [EvAppend "object-7-1"; EvAppend "object-7-2"; EvRepeat 4;
        EvGo "object-7-1"; EvGo "object-7-2";
        EvUpload (upload_input w data "object-7-2" (sample_meta w 0));
        EvUpload (upload_input w data "object-7-1" (sample_meta w 2))]
       ++ (EvPrint <$> report RecordLine w 2) ++ [EvExit 0];
     pc := Returned;
     tasks := [TDone; TDone];
     wg := 0;
     cursor := 4;
     exited := Some 0 |}.

(** How far a process is from its end: one for a process that has not
    ended, the statements [main] has left, two for each goroutine to
    launch (the launch and its upload) and one for each upload under
    way. *)
Definition steps_left (p : Proc) : Z :=
  (if exited p is None then 1 else 0)
  + match pc p with
    | Launching rest => 3 + 2 * Z.of_nat (length rest)
    | Waiting => 2
    | Reporting => 1
    | Returned => 0
    end
  + running (tasks p).

(** A decimal digit. *)
Definition is_digit (a : ascii) : bool :=
  let n := N_of_ascii a in (48 <=? n)%N && (n <=? 57)%N.

(** Every byte of the string satisfies [f]. *)
Fixpoint all_chars (f : ascii -> bool) (s : string) : bool :=
  match s with
  | EmptyString => true
  | String a rest => f a && all_chars f rest
  end.

(** A byte that is not the separator of the record line. *)
Definition field_byte (a : ascii) : bool := negb (Ascii.eqb a ";").

(** * Properties *)

(** ** Integers and decimal text *)

Lemma wrap_in_range (z : Z) : GoInt.in_range z -> GoInt.wrap z = z.
Proof.
  unfold GoInt.in_range, GoInt.wrap, GoInt.minInt, GoInt.maxInt.
  intros Hz. rewrite Z.mod_small; lia.
Qed.

Lemma add_in_range (a b : Z) : GoInt.in_range (a + b) -> GoInt.add a b = a + b.
Proof. apply wrap_in_range. Qed.

Lemma parse_digits_bounds (s : string) (acc n : Z) :
  0 <= acc -> parse_digits s acc = inl n -> acc <= n <= 2 ^ 64 - 1 \/ s = EmptyString /\ n = acc.
Proof.
  revert acc. induction s as [|a s IH]; intros acc Hacc; simpl.
  - intros [= <-]. by right.
  - unfold digit_of. destruct (_ && _) eqn:Hd; [|done].
    apply andb_prop in Hd as [H1%Z.leb_le H2%Z.leb_le].
    destruct (_ <? _) eqn:Hlt; [done|]. apply Z.ltb_ge in Hlt.
    intros Hp. apply IH in Hp; [|lia]. left. lia.
Qed.

Lemma parse_digits_nonneg (s : string) (n : Z) : parse_digits s 0 = inl n -> 0 <= n <= 2 ^ 64 - 1.
Proof. intros H. apply parse_digits_bounds in H; [|done]. lia. Qed.

Example Atoi_samples :
  Atoi "10" = inl 10 /\ Atoi "+12" = inl 12 /\ Atoi "-3" = inl (-3) /\
  Atoi "0" = inl 0 /\ Atoi "" = inr ErrSyntax /\ Atoi "abc" = inr ErrSyntax /\
  Atoi "-" = inr ErrSyntax /\ Atoi "1_0" = inr ErrSyntax /\
  Atoi " 1" = inr ErrSyntax /\
  Atoi "9223372036854775807" = inl GoInt.maxInt /\
  Atoi "9223372036854775808" = inr ErrRange /\
  Atoi "-9223372036854775808" = inl GoInt.minInt /\
  Atoi "-9223372036854775809" = inr ErrRange.
Proof. repeat split. Qed.

(** [Atoi] only answers with a value an [int] holds. *)
Lemma Atoi_in_range (s : string) (c : Z) : Atoi s = inl c -> GoInt.in_range c.
Proof.
  unfold Atoi, GoInt.in_range, GoInt.minInt, GoInt.maxInt.
  destruct s as [|a rest]; [done|].
  set (body := if Ascii.eqb a "-" || Ascii.eqb a "+" then rest else String a rest).
  destruct body as [|b body]; [done|].
  destruct (parse_digits (String b body) 0) as [un|] eqn:Hp; [|done].
  apply parse_digits_nonneg in Hp.
  destruct (Ascii.eqb a "-").
  - destruct (_ <? _) eqn:H; [done|]. apply Z.ltb_ge in H. intros [= <-]. lia.
  - destruct (_ <=? _) eqn:H; [done|]. apply Z.leb_gt in H. intros [= <-]. lia.
Qed.

Lemma fmt_d_inj (a b : Z) : fmt_d a = fmt_d b -> a = b.
Proof.
  unfold fmt_d. intros H.
  apply DecimalZ.to_int_inj.
  assert (Hne : forall z, Z.to_int z <> Decimal.Pos Decimal.Nil /\
                           Z.to_int z <> Decimal.Neg Decimal.Nil).
  { intros z. split; intros Hz;
      pose proof (DecimalZ.to_of (Z.to_int z)) as Hn;
      rewrite DecimalZ.of_to in Hn; rewrite Hz in Hn; discriminate Hn. }
  pose proof (NilZero.isi (Z.to_int a) (proj1 (Hne a)) (proj2 (Hne a))) as Ha.
  pose proof (NilZero.isi (Z.to_int b) (proj1 (Hne b)) (proj2 (Hne b))) as Hb.
  rewrite H in Ha. congruence.
Qed.

Lemma append_inj_r (p a b : string) : p +:+ a = p +:+ b -> a = b.
Proof. induction p as [|c p IH]; simpl; [done|]. intros [= H]. auto. Qed.

Lemma Sprintf_object_node_inj (node : string) : Inj (=) (=) (Sprintf_object_node node).
Proof.
  intros a b H. unfold Sprintf_object_node in H.
  by apply append_inj_r, append_inj_r, append_inj_r, fmt_d_inj in H.
Qed.

Lemma Sprintf_object_inj : Inj (=) (=) Sprintf_object.
Proof. intros a b H. by apply append_inj_r, fmt_d_inj in H. Qed.

Lemma Sprintf_meta_key_inj : Inj (=) (=) Sprintf_meta_key.
Proof. intros a b H. by apply append_inj_r, append_inj_r, fmt_d_inj in H. Qed.

Lemma object_name_inj (v : Variant) (w : World) : Inj (=) (=) (object_name v w).
Proof.
  destruct v; simpl; [apply Sprintf_object_node_inj|apply Sprintf_object_inj].
Qed.

(** ** The loop over the object names *)

(** With [i] names made and [conc - i] to go, the loop appends the names
    of [i+1 .. conc]. *)
Lemma objectNames_loop_spec (name : Z -> string) (fuel : nat) (conc i : Z)
    (acc : list string) :
  0 <= i -> conc <= GoInt.maxInt -> Z.of_nat fuel = Z.max 0 (conc - i) ->
  objectNames_loop name fuel conc i acc
  = (acc ++ (name <$> seqZ (i + 1) (conc - i)))%list.
Proof.
  revert i acc. induction fuel as [|fuel IH]; intros i acc Hi Hmax Hfuel; simpl.
  - rewrite seqZ_nil by lia. by rewrite fmap_nil, app_nil_r.
  - destruct (i <? conc) eqn:Hlt; [apply Z.ltb_lt in Hlt|apply Z.ltb_ge in Hlt; lia].
    rewrite add_in_range
      by (unfold GoInt.in_range, GoInt.minInt, GoInt.maxInt in *; lia).
    rewrite IH by lia.
    rewrite (seqZ_cons (i + 1)) by lia. rewrite fmap_cons, <- app_assoc. simpl.
    replace (Z.succ (i + 1)) with (i + 1 + 1) by lia.
    by replace (Z.pred (conc - i)) with (conc - (i + 1)) by lia.
Qed.

Lemma gen_objectNames_spec (name : Z -> string) (conc : Z) :
  conc <= GoInt.maxInt ->
  gen_objectNames name conc = name <$> seqZ 1 conc.
Proof.
  intros H. unfold gen_objectNames.
  rewrite objectNames_loop_spec by lia. simpl. do 2 f_equal. lia.
Qed.

(** More fuel changes nothing: after [conc] rounds the guard [i < conc]
    has failed and the loop is over. *)
Lemma objectNames_loop_done (name : Z -> string) (extra : nat) (conc i : Z)
    (acc : list string) :
  conc <= i -> objectNames_loop name extra conc i acc = acc.
Proof.
  intros H. destruct extra; simpl; [done|].
  destruct (i <? conc) eqn:Hlt; [apply Z.ltb_lt in Hlt; lia|done].
Qed.

Lemma objectNames_loop_fuel (name : Z -> string) (fuel extra : nat)
    (conc i : Z) (acc : list string) :
  0 <= i -> conc <= GoInt.maxInt -> Z.of_nat fuel = Z.max 0 (conc - i) ->
  objectNames_loop name (fuel + extra) conc i acc
  = objectNames_loop name fuel conc i acc.
Proof.
  revert i acc. induction fuel as [|fuel IH]; intros i acc Hi Hmax Hfuel; simpl.
  - apply objectNames_loop_done. lia.
  - destruct (i <? conc) eqn:Hlt; [apply Z.ltb_lt in Hlt|done].
    rewrite add_in_range
      by (unfold GoInt.in_range, GoInt.minInt, GoInt.maxInt in *; lia).
    apply IH; lia.
Qed.

(** ** The bytes of the formatted fields *)

Lemma count_char_app (c : ascii) (s t : string) :
  count_char c (s +:+ t) = (count_char c s + count_char c t)%nat.
Proof. induction s as [|a s IH]; simpl; [done|]. rewrite IH. lia. Qed.

Lemma all_chars_app (f : ascii -> bool) (s t : string) :
  all_chars f (s +:+ t) = all_chars f s && all_chars f t.
Proof. induction s as [|a s IH]; simpl; [done|]. by rewrite IH, andb_assoc. Qed.

Lemma all_chars_impl (f g : ascii -> bool) (s : string) :
  (forall a, f a = true -> g a = true) ->
  all_chars f s = true -> all_chars g s = true.
Proof.
  intros Hfg. induction s as [|a s IH]; simpl; [done|].
  intros [Ha Hs]%andb_prop. by rewrite (Hfg a Ha), IH.
Qed.

Lemma all_chars_count (f : ascii -> bool) (c : ascii) (s : string) :
  f c = false -> all_chars f s = true -> count_char c s = 0%nat.
Proof.
  intros Hc. induction s as [|a s IH]; simpl; [done|].
  intros [Ha Hs]%andb_prop. rewrite (IH Hs).
  destruct (Ascii.eqb_spec a c) as [->|]; [congruence|done].
Qed.

Lemma string_of_uint_digits (d : Decimal.uint) :
  all_chars is_digit (NilEmpty.string_of_uint d) = true.
Proof. induction d; simpl; done. Qed.

(** [%d] of an [int] that is not negative is made of digits. *)
Lemma fmt_d_digits (z : Z) : 0 <= z -> all_chars is_digit (fmt_d z) = true.
Proof.
  intros Hz. unfold fmt_d. destruct z as [|p|p]; [done| |lia].
  simpl. unfold NilZero.string_of_uint.
  destruct (Pos.to_uint p) eqn:Hp; first [apply string_of_uint_digits|done].
Qed.

(** [%d] of any [int] is made of digits and a sign. *)
Lemma fmt_d_chars (z : Z) :
  all_chars (fun a => is_digit a || Ascii.eqb a "-") (fmt_d z) = true.
Proof.
  destruct z as [|p|p].
  - done.
  - eapply all_chars_impl; [|apply (fmt_d_digits (Z.pos p)); lia].
    intros a ->. done.
  - unfold fmt_d. simpl. unfold NilZero.string_of_uint.
    assert (all_chars (fun a => is_digit a || Ascii.eqb a "-")
              (NilEmpty.string_of_uint (Pos.to_uint p)) = true) as H.
    { eapply all_chars_impl; [|apply string_of_uint_digits]. by intros a ->. }
    destruct (Pos.to_uint p); first [exact H|done].
Qed.

(** ** The node in an object name *)

(** The last dash of a name separates the node from the index. *)
Lemma string_app_nil (s : string) : "" +:+ s = s.
Proof. reflexivity. Qed.

Lemma string_app_cons (c : ascii) (s t : string) :
  String c s +:+ t = String c (s +:+ t).
Proof. reflexivity. Qed.

Lemma split_at_last_dash (a b x y : string) :
  count_char "-" x = 0%nat -> count_char "-" y = 0%nat ->
  a +:+ "-" +:+ x = b +:+ "-" +:+ y -> a = b /\ x = y.
Proof.
  intros Hx Hy. revert b.
  induction a as [|c a IH]; intros [|c' b] H;
    rewrite ?string_app_cons, ?string_app_nil in H.
  - injection H as Hrest. by subst.
  - injection H as Hc Hrest. subst c' x.
    rewrite count_char_app in Hx. cbn in Hx. lia.
  - injection H as Hc Hrest. subst c y.
    rewrite count_char_app in Hy. cbn in Hy. lia.
  - injection H as Hc Hrest. subst c'.
    destruct (IH b Hrest) as [-> ->]. done.
Qed.

Lemma Sprintf_object_node_inj2 (node1 node2 : string) (i j : Z) :
  0 <= i -> 0 <= j ->
  Sprintf_object_node node1 i = Sprintf_object_node node2 j ->
  node1 = node2 /\ i = j.
Proof.
  intros Hi Hj H. unfold Sprintf_object_node in H.
  apply append_inj_r in H.
  apply split_at_last_dash in H as [-> H%fmt_d_inj]; [done|..].
  - eapply all_chars_count; [|by apply fmt_d_digits]. done.
  - eapply all_chars_count; [|by apply fmt_d_digits]. done.
Qed.

(** ** Flags *)

Example flag_defaults :
  objectSize (default_world "1") = 10485760 /\
  metaCount (default_world "1") = 1 /\
  metaSize (default_world "1") = 1024 /\
  objectSize (sample_world "1" "1" 4 1 2) = 4.
Proof. repeat split. Qed.

(** ** Traces of the setup *)

Lemma appended_names (names : list string) (rest : list Event) :
  Forall (fun e => is_append e = false) rest ->
  appended ((EvAppend <$> names) ++ rest) = names.
Proof.
  intros Hrest. unfold appended. rewrite omap_app.
  replace (omap _ rest) with (@nil string).
  - rewrite app_nil_r. induction names as [|n names IH]; [done|].
    simpl in *. by f_equal.
  - induction Hrest as [|e rest He _ IH]; [done|].
    destruct e; simpl in *; try done.
Qed.

Lemma main_setup_appended (v : Variant) (w : World) (c : Z) :
  Atoi (Getenv w "CONCURRENCY") = inl c ->
  appended (fst (main_setup v w)) = gen_objectNames (object_name v w) c.
Proof.
  intros Hc. unfold main_setup. rewrite Hc.
  destruct (bytes_Repeat filler (objectSize w)); simpl.
  - apply appended_names. by repeat constructor.
  - rewrite <- app_assoc. apply appended_names. by repeat constructor.
Qed.

(** C2. For every concurrency [c >= 0] that [CONCURRENCY] parses to, the
    driver appends exactly [c] object names, no two of them equal, and the
    name at position [i] (from 0) is the name of the index [i + 1]: the
    text ["object-"], the [NODE] value, a dash and the decimal digits of
    [i + 1] in the record-line revision, the text ["object"] and these
    digits in the other. The [NODE] value is part of the name: a run of
    the record-line revision under another [NODE] value makes none of
    these names, whatever its concurrency. *)
Theorem object_names_generated (v : Variant) (w : World) (c : Z) :
  Atoi (Getenv w "CONCURRENCY") = inl c -> 0 <= c ->
  let names := appended (fst (main_setup v w)) in
  length names = Z.to_nat c /\
  NoDup names /\
  (forall i : nat, (i < Z.to_nat c)%nat ->
     names !! i = Some (object_name v w (Z.of_nat i + 1))) /\
  object_name RecordLine w = Sprintf_object_node (Getenv w "NODE") /\
  object_name HumanReadable w = Sprintf_object /\
  (forall i : nat, (i < Z.to_nat c)%nat ->
     names !! i
     = Some match v with
            | RecordLine =>
                "object-" +:+ Getenv w "NODE" +:+ "-" +:+ fmt_d (Z.of_nat i + 1)
            | HumanReadable => "object" +:+ fmt_d (Z.of_nat i + 1)
            end) /\
  (v = RecordLine ->
   forall (w' : World) (c' : Z),
     Atoi (Getenv w' "CONCURRENCY") = inl c' ->
     Getenv w' "NODE" <> Getenv w "NODE" ->
     forall name : string,
       name ∈ names -> name ∉ appended (fst (main_setup RecordLine w'))).
Proof.
  intros Hc Hpos names. subst names.
  rewrite (main_setup_appended v w c Hc).
  pose proof (Atoi_in_range _ _ Hc) as [_ Hmax].
  rewrite gen_objectNames_spec by done.
  split; [by rewrite length_fmap, length_seqZ|].
  split; [apply (NoDup_fmap_2 _ (Inj0 := object_name_inj v w)), NoDup_seqZ|].
  assert (forall i : nat, (i < Z.to_nat c)%nat ->
            (object_name v w <$> seqZ 1 c) !! i
            = Some (object_name v w (Z.of_nat i + 1))) as Hat.
  { intros i Hi. rewrite list_lookup_fmap, lookup_seqZ_lt by lia.
    simpl. do 2 f_equal. lia. }
  split; [exact Hat|]. split; [done|]. split; [done|]. split.
  - intros i Hi. rewrite (Hat i Hi). by destruct v.
  - intros -> w' c' Hc' Hnode name.
    rewrite (main_setup_appended _ _ _ Hc').
    pose proof (Atoi_in_range _ _ Hc') as [_ Hmax'].
    rewrite gen_objectNames_spec by done.
    intros (i & -> & Hi%elem_of_seqZ)%list_elem_of_fmap
           (j & Heq & Hj%elem_of_seqZ)%list_elem_of_fmap.
    simpl in Heq. apply Sprintf_object_node_inj2 in Heq as [Heq _]; [|lia..].
    by rewrite Heq in Hnode.
Qed.

Lemma object_names_generated_witness :
  Atoi (Getenv (sample_world "3" "7" 4 1 2) "CONCURRENCY") = inl 3 /\ 0 <= 3 /\
  let names := appended (fst (main_setup RecordLine (sample_world "3" "7" 4 1 2))) in
  length names = Z.to_nat 3 /\
  NoDup names /\
  (forall i : nat, (i < Z.to_nat 3)%nat ->
     names !! i
     = Some (object_name RecordLine (sample_world "3" "7" 4 1 2) (Z.of_nat i + 1))) /\
  object_name RecordLine (sample_world "3" "7" 4 1 2)
  = Sprintf_object_node (Getenv (sample_world "3" "7" 4 1 2) "NODE") /\
  object_name HumanReadable (sample_world "3" "7" 4 1 2) = Sprintf_object /\
  (forall i : nat, (i < Z.to_nat 3)%nat ->
     names !! i
     = Some ("object-" +:+ Getenv (sample_world "3" "7" 4 1 2) "NODE" +:+ "-"
               +:+ fmt_d (Z.of_nat i + 1))) /\
  (RecordLine = RecordLine ->
   forall (w' : World) (c' : Z),
     Atoi (Getenv w' "CONCURRENCY") = inl c' ->
     Getenv w' "NODE" <> Getenv (sample_world "3" "7" 4 1 2) "NODE" ->
     forall name : string,
       name ∈ names -> name ∉ appended (fst (main_setup RecordLine w'))).
Proof.
  split; [reflexivity|]. split; [lia|].
  apply (object_names_generated RecordLine (sample_world "3" "7" 4 1 2) 3);
    [reflexivity|lia].
Defined.

Example object_names_sample :
  appended (fst (main_setup RecordLine (sample_world "3" "7" 4 1 2)))
  = ["object-7-1"; "object-7-2"; "object-7-3"] /\
  appended (fst (main_setup HumanReadable (sample_world "3" "7" 4 1 2)))
  = ["object1"; "object2"; "object3"].
Proof. split; vm_compute; reflexivity. Qed.

(** ** The process: what every interleaving keeps *)

Section ProcessFacts.

Variable v : Variant.
Variable w : World.
Variable conc : Z.
Variable data : list Byte.byte.

Local Abbreviation step := (step v w conc data).

Lemma step_running (p p' : Proc) : step p p' -> exited p = None.
Proof. by destruct 1. Qed.

(** A step only adds events of the run, and every upload it adds sends the
    payload of the setup. *)
Lemma step_trace (p p' : Proc) :
  step p p' ->
  exists more, trace p' = trace p ++ more /\ Forall (run_event v w data) more.
Proof.
  destruct 1; simpl;
    try (by eexists; split;
           [reflexivity|repeat constructor; simpl; unfold sent; eauto 10]);
    try (by exists []; split; [by rewrite app_nil_r|constructor]).
  exists (EvPrint <$> report v w conc). split; [done|].
  apply Forall_fmap, Forall_true. done.
Qed.

Lemma steps_trace (p p' : Proc) :
  rtc step p p' ->
  exists more, trace p' = trace p ++ more /\ Forall (run_event v w data) more.
Proof.
  induction 1 as [p|p q r Hpq _ (more2 & Hr & Hok2)].
  - exists []. split; [by rewrite app_nil_r|constructor].
  - destruct (step_trace _ _ Hpq) as (more1 & Hq & Hok1).
    exists (more1 ++ more2). split; [|by apply Forall_app].
    by rewrite Hr, Hq, app_assoc.
Qed.

(** Without object names [main] runs alone: it leaves the launch loop,
    passes [wg.Wait()] at once, prints and returns. *)
Lemma alone_steps (tr : list Event) (p : Proc) :
  rtc step (launch tr []) p ->
  p = alone tr [] (Launching []) None \/
  p = alone tr [] Waiting None \/
  p = alone tr [] Reporting None \/
  p = alone tr (EvPrint <$> report v w conc) Returned None \/
  p = alone tr ((EvPrint <$> report v w conc) ++ [EvExit 0]) Returned (Some 0).
Proof.
  intros H. apply rtc_nsteps in H as [n H]. revert p H.
  induction n as [|n IH]; intros p H.
  - inversion H; subst.
    left. unfold launch, alone. by rewrite app_nil_r.
  - apply nsteps_inv_r in H as (q & Hq & Hstep).
    specialize (IH q Hq).
    destruct IH as [ -> | [ -> | [ -> | [ -> | -> ]]]];
      inversion Hstep; subst; simpl in *; try discriminate;
      try match goal with H : [] !! _ = Some _ |- _ => by rewrite lookup_nil in H end.
    + right; left. done.
    + right; right; left. done.
    + right; right; right; left. unfold alone. simpl. by rewrite <- app_assoc.
    + right; right; right; right. unfold alone. simpl. by rewrite <- app_assoc.
Qed.

Lemma alone_run (tr : list Event) :
  rtc step (launch tr [])
    (alone tr ((EvPrint <$> report v w conc) ++ [EvExit 0]) Returned (Some 0)).
Proof.
  eapply rtc_l; [by apply step_launched|].
  eapply rtc_l; [by apply step_wait|].
  eapply rtc_l; [by apply step_report|].
  eapply rtc_l; [by apply step_return|].
  simpl. unfold alone. rewrite <- app_assoc. apply rtc_refl.
Qed.

End ProcessFacts.

(** ** The setup of [main] *)

Lemma not_reachable_unless_ready (v : Variant) (w : World) :
  (forall conc objectNames data,
     snd (main_setup v w) <> Ready conc objectNames data) ->
  forall p, ~ reachable v w p.
Proof.
  intros Hno p (tr & conc & names & data & Hsetup & _).
  apply (Hno conc names data). by rewrite Hsetup.
Qed.

(** C5. When [CONCURRENCY] is unset, or set to text that [strconv.Atoi]
    rejects, the run is [log.Fatalln(err)] and nothing else: no object
    name is made, [bytes.Repeat] is not called, no goroutine and no upload
    is started. *)
Theorem fatal_on_unparsable_concurrency (v : Variant) (w : World) :
  Getenv w "CONCURRENCY" = "" \/
  (exists err, Atoi (Getenv w "CONCURRENCY") = inr err) ->
  exists err,
    main_setup v w = ([EvFatal err; EvExit 1], Fatal err) /\
    forall p, ~ reachable v w p.
Proof.
  intros H.
  assert (exists err, Atoi (Getenv w "CONCURRENCY") = inr err) as [err Herr].
  { destruct H as [-> | H]; [by exists ErrSyntax|done]. }
  assert (main_setup v w = ([EvFatal err; EvExit 1], Fatal err)) as Hsetup.
  { unfold main_setup. by rewrite Herr. }
  exists err. split; [done|].
  apply not_reachable_unless_ready. intros ? ? ?. by rewrite Hsetup.
Qed.

Lemma fatal_on_unparsable_concurrency_witness :
  (Getenv (sample_world "abc" "1" 4 1 2) "CONCURRENCY" = "" \/
   exists err, Atoi (Getenv (sample_world "abc" "1" 4 1 2) "CONCURRENCY") = inr err) /\
  exists err,
    main_setup RecordLine (sample_world "abc" "1" 4 1 2)
    = ([EvFatal err; EvExit 1], Fatal err) /\
    forall p, ~ reachable RecordLine (sample_world "abc" "1" 4 1 2) p.
Proof.
  assert (Getenv (sample_world "abc" "1" 4 1 2) "CONCURRENCY" = "" \/
          exists err, Atoi (Getenv (sample_world "abc" "1" 4 1 2) "CONCURRENCY")
                      = inr err) as H.
  { right. exists ErrSyntax. reflexivity. }
  split; [exact H|].
  exact (fatal_on_unparsable_concurrency RecordLine (sample_world "abc" "1" 4 1 2) H).
Defined.

Example unset_concurrency_is_fatal :
  main_setup HumanReadable (sample_world "" "" 4 1 2)
  = ([EvFatal ErrSyntax; EvExit 1], Fatal ErrSyntax).
Proof. reflexivity. Qed.

(** ** The payload *)

Lemma bytes_Repeat_filler (size : Z) :
  0 <= size <= GoInt.maxInt ->
  bytes_Repeat filler size = Ok (replicate (Z.to_nat size) Byte.x61).
Proof.
  intros Hsize. unfold bytes_Repeat.
  destruct (size =? 0) eqn:H0.
  { apply Z.eqb_eq in H0. by subst. }
  destruct (size <? 0) eqn:Hneg; [apply Z.ltb_lt in Hneg; lia|].
  unfold filler at 1. simpl length.
  destruct (GoInt.maxInt <? Z.of_nat 1 * size) eqn:Hov;
    [apply Z.ltb_lt in Hov; lia|].
  f_equal. generalize (Z.to_nat size). intros n. unfold filler.
  induction n as [|n IH]; [done|]. simpl. by rewrite IH.
Qed.

Lemma bytes_Repeat_negative (b : list Byte.byte) (count : Z) :
  count < 0 -> bytes_Repeat b count = Panic "bytes: negative Repeat count".
Proof.
  intros H. unfold bytes_Repeat.
  destruct (count =? 0) eqn:H0; [apply Z.eqb_eq in H0; lia|].
  destruct (count <? 0) eqn:Hneg; [done|apply Z.ltb_ge in Hneg; lia].
Qed.

Lemma repeats_run (v : Variant) (w : World) (data : list Byte.byte)
    (tr more : list Event) :
  Forall (run_event v w data) more -> repeats (tr ++ more) = repeats tr.
Proof.
  intros H. unfold repeats. rewrite omap_app.
  replace (omap _ more) with (@nil Z); [by rewrite app_nil_r|].
  induction H as [|e more He _ IH]; [done|]. by destruct e.
Qed.

Lemma uploads_run (v : Variant) (w : World) (data : list Byte.byte)
    (more : list Event) :
  Forall (run_event v w data) more -> Forall (sent v w data) (uploads more).
Proof.
  induction 1 as [|e more He _ IH]; [constructor|].
  destruct e; simpl in *; try done. by constructor.
Qed.

Lemma sent_Body (v : Variant) (w : World) (data : list Byte.byte)
    (input : UploadInput) :
  sent v w data input -> Body input = data.
Proof. by intros (name & fuel & cur & meta & cur' & _ & ->). Qed.

Lemma uploads_setup (names : list string) (rest : list Event) :
  uploads ((EvAppend <$> names) ++ rest) = uploads rest.
Proof. induction names as [|n names IH]; [done|]. exact IH. Qed.

Lemma repeats_setup (names : list string) (rest : list Event) :
  repeats ((EvAppend <$> names) ++ rest) = repeats rest.
Proof. induction names as [|n names IH]; [done|]. exact IH. Qed.

Lemma main_setup_ready (v : Variant) (w : World) (c : Z) :
  Atoi (Getenv w "CONCURRENCY") = inl c ->
  0 <= objectSize w <= GoInt.maxInt ->
  main_setup v w
  = ((EvAppend <$> gen_objectNames (object_name v w) c)
       ++ [EvRepeat (objectSize w)],
     Ready c (gen_objectNames (object_name v w) c)
       (replicate (Z.to_nat (objectSize w)) Byte.x61)).
Proof.
  intros Hc Hsize. unfold main_setup.
  by rewrite Hc, bytes_Repeat_filler.
Qed.

(** C9. For every size [>= 0] of the [-size] flag (an [int]) and every
    run that gets past [CONCURRENCY], the payload is [size] bytes long,
    every byte is the byte of ["a"], and it is made once: [bytes.Repeat]
    is called a single time, with [size], and every upload of the run
    sends that one buffer. *)
Theorem payload_generated_once (v : Variant) (w : World) (c : Z) :
  0 <= objectSize w <= GoInt.maxInt ->
  Atoi (Getenv w "CONCURRENCY") = inl c ->
  exists tr objectNames data,
    main_setup v w = (tr, Ready c objectNames data) /\
    bytes_Repeat filler (objectSize w) = Ok data /\
    length data = Z.to_nat (objectSize w) /\
    Forall (fun b => b = Byte.x61) data /\
    repeats tr = [objectSize w] /\
    forall p, reachable v w p ->
      repeats (trace p) = [objectSize w] /\
      Forall (fun input => Body input = data) (uploads (trace p)).
Proof.
  intros Hsize Hc.
  pose proof (main_setup_ready v w c Hc Hsize) as Hsetup.
  eexists _, _, _. split; [exact Hsetup|].
  split; [by apply bytes_Repeat_filler|].
  split; [by rewrite length_replicate|].
  split; [by apply Forall_replicate|].
  split; [by rewrite repeats_setup|].
  intros p (tr & conc & names & data & Hsetup' & Hrun).
  rewrite Hsetup in Hsetup'. injection Hsetup' as <- <- <- <-.
  apply steps_trace in Hrun as (more & -> & Hmore). simpl.
  split.
  - by rewrite (repeats_run _ _ _ _ _ Hmore), repeats_setup.
  - rewrite <- app_assoc, uploads_setup. simpl.
    eapply Forall_impl; [by apply uploads_run|]. apply sent_Body.
Qed.

Lemma payload_generated_once_witness :
  0 <= objectSize (sample_world "2" "1" 4 1 2) <= GoInt.maxInt /\
  Atoi (Getenv (sample_world "2" "1" 4 1 2) "CONCURRENCY") = inl 2 /\
  exists tr objectNames data,
    main_setup RecordLine (sample_world "2" "1" 4 1 2)
    = (tr, Ready 2 objectNames data) /\
    bytes_Repeat filler (objectSize (sample_world "2" "1" 4 1 2)) = Ok data /\
    length data = Z.to_nat (objectSize (sample_world "2" "1" 4 1 2)) /\
    Forall (fun b => b = Byte.x61) data /\
    repeats tr = [objectSize (sample_world "2" "1" 4 1 2)] /\
    forall p, reachable RecordLine (sample_world "2" "1" 4 1 2) p ->
      repeats (trace p) = [objectSize (sample_world "2" "1" 4 1 2)] /\
      Forall (fun input => Body input = data) (uploads (trace p)).
Proof.
  assert (0 <= objectSize (sample_world "2" "1" 4 1 2) <= GoInt.maxInt) as Hsize.
  { vm_compute. split; discriminate. }
  split; [exact Hsize|]. split; [reflexivity|].
  exact (payload_generated_once RecordLine (sample_world "2" "1" 4 1 2) 2
           Hsize eq_refl).
Defined.

Example payload_sample :
  bytes_Repeat filler 3 = Ok [Byte.x61; Byte.x61; Byte.x61] /\
  bytes_Repeat filler 0 = Ok [].
Proof. split; reflexivity. Qed.

(** C10. For every negative [-size], [bytes.Repeat] panics on its negative
    count. No run with such a size launches a goroutine or an upload, and
    every run that got past [CONCURRENCY] ends in that panic, a crash of
    the process and not a logged configuration error. *)
Theorem negative_size_panics (v : Variant) (w : World) :
  objectSize w < 0 ->
  bytes_Repeat filler (objectSize w) = Panic "bytes: negative Repeat count" /\
  (forall p, ~ reachable v w p) /\
  (forall c, Atoi (Getenv w "CONCURRENCY") = inl c ->
     main_setup v w
     = ((EvAppend <$> gen_objectNames (object_name v w) c)
          ++ [EvRepeat (objectSize w);
              EvPanic "bytes: negative Repeat count"; EvExit 2],
        Crashed "bytes: negative Repeat count")).
Proof.
  intros Hneg.
  pose proof (bytes_Repeat_negative filler _ Hneg) as Hpanic.
  split; [done|]. split.
  - apply not_reachable_unless_ready. intros conc names data.
    unfold main_setup. destruct (Atoi _); [|done]. by rewrite Hpanic.
  - intros c Hc. unfold main_setup. rewrite Hc, Hpanic.
    by rewrite <- app_assoc.
Qed.

Lemma negative_size_panics_witness :
  objectSize (sample_world "2" "1" (-1) 1 2) < 0 /\
  bytes_Repeat filler (objectSize (sample_world "2" "1" (-1) 1 2))
  = Panic "bytes: negative Repeat count" /\
  (forall p, ~ reachable RecordLine (sample_world "2" "1" (-1) 1 2) p) /\
  (forall c, Atoi (Getenv (sample_world "2" "1" (-1) 1 2) "CONCURRENCY") = inl c ->
     main_setup RecordLine (sample_world "2" "1" (-1) 1 2)
     = ((EvAppend <$> gen_objectNames
                        (object_name RecordLine (sample_world "2" "1" (-1) 1 2)) c)
          ++ [EvRepeat (objectSize (sample_world "2" "1" (-1) 1 2));
              EvPanic "bytes: negative Repeat count"; EvExit 2],
        Crashed "bytes: negative Repeat count")).
Proof.
  assert (objectSize (sample_world "2" "1" (-1) 1 2) < 0) as Hneg by reflexivity.
  split; [exact Hneg|].
  exact (negative_size_panics RecordLine (sample_world "2" "1" (-1) 1 2) Hneg).
Defined.

Example negative_size_sample :
  main_setup RecordLine (sample_world "2" "1" (-1) 1 2)
  = ([EvAppend "object-1-1"; EvAppend "object-1-2"; EvRepeat (-1);
      EvPanic "bytes: negative Repeat count"; EvExit 2],
     Crashed "bytes: negative Repeat count").
Proof. reflexivity. Qed.

(** ** A concurrency that is not positive *)

Lemma gen_objectNames_nonpos (name : Z -> string) (c : Z) :
  c <= 0 -> gen_objectNames name c = [].
Proof.
  intros Hc. unfold gen_objectNames.
  by replace (Z.to_nat c) with 0%nat by lia.
Qed.

Lemma stdout_prints (lines : list string) : stdout (EvPrint <$> lines) = lines.
Proof. induction lines as [|l lines IH]; [done|]. unfold stdout in *. simpl. by f_equal. Qed.

Lemma uploads_prints (lines : list string) : uploads (EvPrint <$> lines) = [].
Proof. induction lines as [|l lines IH]; [done|]. exact IH. Qed.

Lemma stdout_app (tr1 tr2 : list Event) : stdout (tr1 ++ tr2) = stdout tr1 ++ stdout tr2.
Proof. apply omap_app. Qed.

Lemma uploads_app (tr1 tr2 : list Event) : uploads (tr1 ++ tr2) = uploads tr1 ++ uploads tr2.
Proof. apply omap_app. Qed.

(** A run without object names, under any interleaving. *)
Lemma empty_run (v : Variant) (w : World) (c : Z) :
  Atoi (Getenv w "CONCURRENCY") = inl c -> c <= 0 ->
  0 <= objectSize w <= GoInt.maxInt ->
  (forall p, reachable v w p ->
     uploads (trace p) = [] /\ tasks p = [] /\ wg p = 0 /\
     (exited p = None \/ exited p = Some 0)) /\
  (exists p, reachable v w p /\ exited p = Some 0 /\
             stdout (trace p) = report v w c).
Proof.
  intros Hc Hle Hsize.
  pose proof (main_setup_ready v w c Hc Hsize) as Hsetup.
  rewrite (gen_objectNames_nonpos _ _ Hle) in Hsetup. simpl in Hsetup.
  split.
  - intros p (tr & conc & names & data & Hsetup' & Hrun).
    rewrite Hsetup in Hsetup'. injection Hsetup' as <- <- <- <-.
    apply alone_steps in Hrun.
    destruct Hrun as [ -> | [ -> | [ -> | [ -> | -> ]]]];
      unfold alone, trace, tasks, exited, wg;
      rewrite ?uploads_app, ?uploads_prints; simpl; auto.
  - eexists. split; [|split].
    + eexists _, _, _, _. split; [exact Hsetup|]. apply alone_run.
    + done.
    + unfold alone, trace. rewrite !stdout_app, stdout_prints.
      change (stdout [EvRepeat (objectSize w)]) with (@nil string).
      change (stdout [EvExit 0]) with (@nil string).
      by rewrite app_nil_r.
Qed.

(** C6, as the code has it. The only fatal configuration error is a
    [CONCURRENCY] that does not parse. A value that parses to [c <= 0] is
    accepted: with a size [>= 0] the run makes no object name, starts no
    upload, prints its report and ends with status 0, whatever the
    interleaving. *)
Theorem nonpositive_concurrency_runs (v : Variant) (w : World) (c : Z) :
  Atoi (Getenv w "CONCURRENCY") = inl c -> c <= 0 ->
  0 <= objectSize w <= GoInt.maxInt ->
  (forall err, snd (main_setup v w) <> Fatal err) /\
  appended (fst (main_setup v w)) = [] /\
  (exists p, reachable v w p /\ exited p = Some 0 /\
             stdout (trace p) = report v w c) /\
  (forall p, reachable v w p ->
     uploads (trace p) = [] /\ tasks p = [] /\
     (exited p = None \/ exited p = Some 0)).
Proof.
  intros Hc Hle Hsize.
  pose proof (main_setup_ready v w c Hc Hsize) as Hsetup.
  rewrite (gen_objectNames_nonpos _ _ Hle) in Hsetup. simpl in Hsetup.
  destruct (empty_run v w c Hc Hle Hsize) as [Hall Hrun].
  split; [intros err; by rewrite Hsetup|].
  split; [by rewrite Hsetup|].
  split; [exact Hrun|].
  intros p Hp. destruct (Hall p Hp) as (? & ? & _ & ?). done.
Qed.

Lemma nonpositive_concurrency_runs_witness :
  Atoi (Getenv (sample_world "-3" "1" 4 1 2) "CONCURRENCY") = inl (-3) /\
  -3 <= 0 /\
  0 <= objectSize (sample_world "-3" "1" 4 1 2) <= GoInt.maxInt /\
  (forall err, snd (main_setup RecordLine (sample_world "-3" "1" 4 1 2)) <> Fatal err) /\
  appended (fst (main_setup RecordLine (sample_world "-3" "1" 4 1 2))) = [] /\
  (exists p, reachable RecordLine (sample_world "-3" "1" 4 1 2) p /\
             exited p = Some 0 /\
             stdout (trace p)
             = report RecordLine (sample_world "-3" "1" 4 1 2) (-3)) /\
  (forall p, reachable RecordLine (sample_world "-3" "1" 4 1 2) p ->
     uploads (trace p) = [] /\ tasks p = [] /\
     (exited p = None \/ exited p = Some 0)).
Proof.
  assert (0 <= objectSize (sample_world "-3" "1" 4 1 2) <= GoInt.maxInt) as Hsize.
  { vm_compute. split; discriminate. }
  split; [reflexivity|]. split; [lia|]. split; [exact Hsize|].
  apply (nonpositive_concurrency_runs RecordLine (sample_world "-3" "1" 4 1 2) (-3));
    [reflexivity|lia|exact Hsize].
Defined.

(** C6 as worded fails: ["0"] parses, to a concurrency that is not
    positive, and the setup is not a fatal error; the run that follows
    prints its report and ends with status 0. *)
Lemma zero_concurrency_is_not_fatal :
  Atoi (Getenv (sample_world "0" "1" 4 1 2) "CONCURRENCY") = inl 0 /\
  main_setup RecordLine (sample_world "0" "1" 4 1 2)
  = ([EvRepeat 4], Ready 0 [] [Byte.x61; Byte.x61; Byte.x61; Byte.x61]) /\
  ~ (exists err, snd (main_setup RecordLine (sample_world "0" "1" 4 1 2)) = Fatal err) /\
  rtc (step RecordLine (sample_world "0" "1" 4 1 2) 0
         [Byte.x61; Byte.x61; Byte.x61; Byte.x61])
    (launch [EvRepeat 4] [])
    (alone [EvRepeat 4]
       ((EvPrint <$> report RecordLine (sample_world "0" "1" 4 1 2) 0)
          ++ [EvExit 0]) Returned (Some 0)).
Proof.
  split; [reflexivity|]. split; [reflexivity|].
  split; [intros [err H]; discriminate H|].
  apply alone_run.
Qed.

(** ** The metadata map *)

Lemma randStringBytes_fill_length (draws : nat -> Z) (cur n : nat) :
  String.length (randStringBytes_fill draws cur n) = n.
Proof. revert cur. induction n as [|n IH]; intros cur; simpl; [done|]. by rewrite IH. Qed.

(** What the loop has done when it ends: one key per index from [i] to
    [metaCount], each holding [metadataValue], over what was there. *)
Lemma meta_loop_sound (fuel : nat) (m i : Z) (val : string)
    (meta meta' : gmap string string) :
  m < GoInt.maxInt -> 1 <= i <= m + 1 ->
  meta_loop fuel m i val meta = Some meta' ->
  dom meta' = dom meta ∪ list_to_set (Sprintf_meta_key <$> seqZ i (m + 1 - i)) /\
  (forall k x, meta' !! k = Some x -> x = val \/ meta !! k = Some x).
Proof.
  intros Hm. revert i meta.
  induction fuel as [|fuel IH]; intros i meta Hi; simpl; [done|].
  destruct (i <=? m) eqn:Hle.
  - apply Z.leb_le in Hle.
    rewrite add_in_range
      by (unfold GoInt.in_range, GoInt.minInt, GoInt.maxInt in *; lia).
    intros Hloop. apply IH in Hloop as [Hdom Hval]; [|lia]. split.
    + rewrite Hdom, dom_insert_L, (seqZ_cons i) by lia. rewrite fmap_cons.
      replace (Z.succ i) with (i + 1) by lia.
      replace (Z.pred (m + 1 - i)) with (m + 1 - (i + 1)) by lia.
      rewrite list_to_set_cons. by rewrite (comm_L union {[_]}), <- (assoc_L union).
    + intros k x Hk. apply Hval in Hk as [->|Hk]; [by left|].
      apply lookup_insert_Some in Hk as [[_ <-]|[_ Hk]]; auto.
  - apply Z.leb_gt in Hle. intros [= <-]. split; [|auto].
    rewrite seqZ_nil by lia. by rewrite fmap_nil, list_to_set_nil, (right_id_L ∅ union).
Qed.

(** The loop ends within [metaCount + 1 - i] rounds and one test. *)
Lemma meta_loop_ends (fuel : nat) (m i : Z) (val : string)
    (meta : gmap string string) :
  m < GoInt.maxInt -> 1 <= i <= m + 1 -> (Z.to_nat (m + 1 - i) < fuel)%nat ->
  is_Some (meta_loop fuel m i val meta).
Proof.
  intros Hm. revert i meta.
  induction fuel as [|fuel IH]; intros i meta Hi Hfuel; simpl; [lia|].
  destruct (i <=? m) eqn:Hle; [|done].
  apply Z.leb_le in Hle.
  rewrite add_in_range
    by (unfold GoInt.in_range, GoInt.minInt, GoInt.maxInt in *; lia).
  apply IH; lia.
Qed.

(** The metadata of the record-line revision, as the claim reads it. *)
Definition metadata_as_claimed (m v : Z) (meta : gmap string string) : Prop :=
  size meta = Z.to_nat m /\
  dom meta = list_to_set (Sprintf_meta_key <$> seqZ 1 m) /\
  NoDup (Sprintf_meta_key <$> seqZ 1 m) /\
  map_Forall (fun _ x => String.length x = Z.to_nat v) meta.

Lemma uploadBlob_meta_sound (fuel : nat) (draws : nat -> Z) (cur cur' : nat)
    (m v : Z) (meta : gmap string string) :
  0 <= m < GoInt.maxInt ->
  uploadBlob_meta fuel draws cur m v = Some (Ok (meta, cur')) ->
  metadata_as_claimed m v meta.
Proof.
  intros Hm. unfold uploadBlob_meta, randStringBytes.
  destruct (v <? 0) eqn:Hv; [done|].
  destruct (meta_loop _ _ _ _ _) as [meta'|] eqn:Hloop; [|done].
  intros [= <- <-].
  apply meta_loop_sound in Hloop as [Hdom Hval]; [|lia..].
  rewrite dom_empty_L, (left_id_L ∅ union) in Hdom.
  replace (m + 1 - 1) with m in Hdom by lia.
  assert (NoDup (Sprintf_meta_key <$> seqZ 1 m)) as Hnodup.
  { apply (NoDup_fmap_2 _ (Inj0 := Sprintf_meta_key_inj)), NoDup_seqZ. }
  split; [|split; [done|split; [done|]]].
  - rewrite <- size_dom, Hdom, size_list_to_set by done.
    by rewrite length_fmap, length_seqZ.
  - intros k x Hk. apply Hval in Hk as [->|Hk]; [|by rewrite lookup_empty in Hk].
    apply randStringBytes_fill_length.
Qed.

Lemma main_setup_uploads (v : Variant) (w : World) :
  uploads (fst (main_setup v w)) = [].
Proof.
  unfold main_setup. destruct (Atoi _); [|done].
  destruct (bytes_Repeat _ _); unfold fst;
    rewrite <- ?app_assoc, uploads_setup; reflexivity.
Qed.

Lemma reachable_uploads (v : Variant) (w : World) (p : Proc) :
  reachable v w p -> exists data, Forall (sent v w data) (uploads (trace p)).
Proof.
  intros (tr & conc & names & data & Hsetup & Hrun). exists data.
  apply steps_trace in Hrun as (more & -> & Hmore). simpl.
  pose proof (main_setup_uploads v w) as Htr. rewrite Hsetup in Htr.
  rewrite uploads_app. simpl in Htr. rewrite Htr. by apply uploads_run.
Qed.

Lemma wrap_bounds (z : Z) : GoInt.in_range (GoInt.wrap z).
Proof.
  unfold GoInt.in_range, GoInt.wrap, GoInt.minInt, GoInt.maxInt.
  pose proof (Z.mod_pos_bound (z + 2 ^ 63) (2 ^ 64) ltac:(lia)). lia.
Qed.

(** With the largest [int] as meta-count the guard [i <= metaCount] never
    fails: [i++] wraps around and the loop does not end. *)
Lemma meta_loop_spins (fuel : nat) (i : Z) (val : string)
    (meta : gmap string string) :
  GoInt.in_range i -> meta_loop fuel GoInt.maxInt i val meta = None.
Proof.
  revert i meta. induction fuel as [|fuel IH]; intros i meta Hi; simpl; [done|].
  destruct (i <=? GoInt.maxInt) eqn:Hle.
  - apply IH, wrap_bounds.
  - apply Z.leb_gt in Hle. destruct Hi. lia.
Qed.

Lemma uploadBlob_meta_as_claimed (fuel : nat) (draws : nat -> Z)
    (cur cur' : nat) (m v : Z) (meta : gmap string string) :
  0 <= m <= GoInt.maxInt ->
  uploadBlob_meta fuel draws cur m v = Some (Ok (meta, cur')) ->
  metadata_as_claimed m v meta.
Proof.
  intros Hm Hmeta. destruct (Z.eq_dec m GoInt.maxInt) as [->|Hne].
  - exfalso. unfold uploadBlob_meta in Hmeta.
    destruct (randStringBytes _ _ _) as [[val cur'']|msg]; [|done].
    rewrite meta_loop_spins in Hmeta; [done|].
    unfold GoInt.in_range, GoInt.minInt, GoInt.maxInt. lia.
  - eapply uploadBlob_meta_sound; [|exact Hmeta]. lia.
Qed.

(** X16. In [parallel-put.go], for every meta-count [m >= 0] and every
    meta-size [v], each upload of every run carries a metadata map of
    exactly [m] entries, under the [m] distinct keys
    ["test-metadata-key-<i>"] for [i] from 1 to [m], every value [v] bytes
    long. For [m] below the largest [int] and [v >= 0] the map is built,
    within [m] rounds of the loop and a last test. *)
Theorem metadata_entries (w : World) :
  0 <= metaCount w <= GoInt.maxInt ->
  (forall p, reachable RecordLine w p ->
     Forall (fun input =>
               metadata_as_claimed (metaCount w) (metaSize w) (Metadata input))
            (uploads (trace p))) /\
  (metaCount w < GoInt.maxInt -> 0 <= metaSize w ->
   forall fuel cur : nat, (Z.to_nat (metaCount w) < fuel)%nat ->
     exists meta cur',
       uploadBlob_metadata RecordLine fuel w cur = Some (Ok (meta, cur')) /\
       metadata_as_claimed (metaCount w) (metaSize w) meta).
Proof.
  intros Hm. split.
  - intros p Hp. apply reachable_uploads in Hp as [data Hp].
    eapply Forall_impl; [exact Hp|].
    intros input (name & fuel' & cur0 & meta & cur' & Hmeta & ->). simpl.
    by eapply uploadBlob_meta_as_claimed.
  - intros Hlt Hv fuel cur Hfuel.
    assert (is_Some (uploadBlob_meta fuel (draws w) cur (metaCount w) (metaSize w)))
      as [r Hr].
    { unfold uploadBlob_meta, randStringBytes.
      destruct (metaSize w <? 0) eqn:Hneg; [apply Z.ltb_lt in Hneg; lia|].
      destruct (meta_loop_ends fuel (metaCount w) 1
                  (randStringBytes_fill (draws w) cur (Z.to_nat (metaSize w))) ∅)
        as [meta Hmeta]; [lia| lia| |].
      - replace (metaCount w + 1 - 1) with (metaCount w) by lia. done.
      - rewrite Hmeta. done. }
    destruct r as [[meta cur']|msg].
    + exists meta, cur'. split; [done|]. by eapply uploadBlob_meta_as_claimed.
    + exfalso. unfold uploadBlob_meta, randStringBytes in Hr.
      destruct (metaSize w <? 0) eqn:Hneg; [apply Z.ltb_lt in Hneg; lia|].
      by destruct (meta_loop _ _ _ _ _).
Qed.

Lemma metadata_entries_witness :
  0 <= metaCount (sample_world "1" "1" 4 3 2) <= GoInt.maxInt /\
  (forall p, reachable RecordLine (sample_world "1" "1" 4 3 2) p ->
     Forall (fun input =>
               metadata_as_claimed (metaCount (sample_world "1" "1" 4 3 2))
                 (metaSize (sample_world "1" "1" 4 3 2)) (Metadata input))
            (uploads (trace p))) /\
  (metaCount (sample_world "1" "1" 4 3 2) < GoInt.maxInt ->
   0 <= metaSize (sample_world "1" "1" 4 3 2) ->
   forall fuel cur : nat,
     (Z.to_nat (metaCount (sample_world "1" "1" 4 3 2)) < fuel)%nat ->
     exists meta cur',
       uploadBlob_metadata RecordLine fuel (sample_world "1" "1" 4 3 2) cur
       = Some (Ok (meta, cur')) /\
       metadata_as_claimed (metaCount (sample_world "1" "1" 4 3 2))
         (metaSize (sample_world "1" "1" 4 3 2)) meta).
Proof.
  assert (0 <= metaCount (sample_world "1" "1" 4 3 2) <= GoInt.maxInt) as Hm.
  { vm_compute. split; discriminate. }
  split; [exact Hm|].
  exact (metadata_entries (sample_world "1" "1" 4 3 2) Hm).
Defined.

Example metadata_sample :
  (fun r => match r with
            | Some (Ok (meta, _)) => Some (map_to_list meta)
            | _ => None
            end)
    (uploadBlob_metadata RecordLine 4 (sample_world "1" "1" 4 3 2) 0)
  = Some [("test-metadata-key-3", "ab"); ("test-metadata-key-1", "ab");
          ("test-metadata-key-2", "ab")].
Proof. vm_compute. reflexivity. Qed.

(** On a negative meta-size [randStringBytes] makes a slice of that
    length, which panics: no map is built and nothing is uploaded (here
    with a meta-count of 1 and a meta-size of -1). *)
Example negative_meta_size_panics :
  uploadBlob_metadata RecordLine 2 (sample_world "1" "1" 4 1 (-1)) 0
  = Some (Panic "makeslice: len out of range").
Proof. reflexivity. Qed.

(** The loop of the sibling revision writes one key over and over, the
    key of the meta-count itself, and draws 1024 letters whatever the
    meta-size: a meta-count of 3 leaves a single entry. *)
Example sibling_metadata_single_key :
  (fun r => match r with
            | Some (Ok (meta, _)) =>
                Some ((fun kv => (fst kv, String.length (snd kv))) <$> map_to_list meta)
            | _ => None
            end)
    (uploadBlob_metadata HumanReadable 5 (sample_world "1" "1" 4 3 2) 0)
  = Some [("test-metadata-key-3", 1024%nat)].
Proof. vm_compute. reflexivity. Qed.

(** ** binary64: the digits of a mantissa *)

Lemma digits2_pos_size (p : positive) : digits2_pos p = Pos.size p.
Proof. induction p as [p IH|p IH|]; simpl; by rewrite ?IH. Qed.

Lemma digits2_pos_bounds (p : positive) :
  2 ^ (Z.pos (digits2_pos p) - 1) <= Z.pos p < 2 ^ Z.pos (digits2_pos p).
Proof.
  rewrite digits2_pos_size. split.
  - pose proof (Pos.size_le p) as H.
    apply Pos2Z.pos_le_pos in H. rewrite Pos2Z.inj_pow in H.
    replace (Z.pos (Pos.size p)) with (Z.pos (Pos.size p) - 1 + 1) in H by lia.
    rewrite Z.pow_add_r in H by lia. change (Z.pos p~0) with (2 * Z.pos p) in H.
    lia.
  - pose proof (Pos.size_gt p) as H.
    apply Pos2Z.pos_lt_pos in H. by rewrite Pos2Z.inj_pow in H.
Qed.

Lemma digits2_pos_unique (p : positive) (d : Z) :
  2 ^ (d - 1) <= Z.pos p < 2 ^ d -> Z.pos (digits2_pos p) = d.
Proof.
  intros [Hlo Hhi]. pose proof (digits2_pos_bounds p) as [Hlo' Hhi'].
  assert (0 < d).
  { destruct (Z.lt_ge_cases 0 d) as [|Hd]; [done|].
    assert (2 ^ d <= 2 ^ 0) by (destruct d; [done|lia|by rewrite Z.pow_neg_r]).
    simpl in *. lia. }
  assert (Z.pos (digits2_pos p) - 1 < d).
  { apply (Z.pow_lt_mono_r_iff 2); lia. }
  assert (d - 1 < Z.pos (digits2_pos p)).
  { apply (Z.pow_lt_mono_r_iff 2); lia. }
  lia.
Qed.

(** ** binary64: shifting a mantissa right *)

Lemma shr_1_m (mrs : shr_record) :
  0 <= shr_m mrs -> shr_m (shr_1 mrs) = shr_m mrs / 2.
Proof.
  destruct mrs as [m r s]. simpl. intros Hm.
  destruct m as [|p|p]; [done| |lia].
  destruct p as [p|p|]; simpl.
  - rewrite Pos2Z.inj_xI. apply Z.div_unique with 1; lia.
  - rewrite Pos2Z.inj_xO. apply Z.div_unique with 0; lia.
  - done.
Qed.

Lemma iter_shr_1_m (k : positive) (mrs : shr_record) :
  0 <= shr_m mrs ->
  shr_m (SpecFloat.iter_pos shr_1 k mrs) = shr_m mrs / 2 ^ Z.pos k.
Proof.
  revert mrs. induction k as [k IH|k IH|]; intros mrs Hm; simpl SpecFloat.iter_pos.
  - assert (0 <= shr_m (shr_1 mrs)) by (rewrite shr_1_m by done; apply Z.div_pos; lia).
    assert (0 <= shr_m (SpecFloat.iter_pos shr_1 k (shr_1 mrs)))
      by (rewrite IH by done; apply Z.div_pos; lia).
    rewrite !IH, shr_1_m by done.
    rewrite !Z.div_div by lia. f_equal.
    replace (Z.pos k~1) with (1 + Z.pos k + Z.pos k) by lia.
    rewrite !Z.pow_add_r by lia. change (2 ^ 1) with 2. lia.
  - assert (0 <= shr_m (SpecFloat.iter_pos shr_1 k mrs))
      by (rewrite IH by done; apply Z.div_pos; lia).
    rewrite !IH by done.
    rewrite !Z.div_div by lia. f_equal.
    replace (Z.pos k~0) with (Z.pos k + Z.pos k) by lia.
    rewrite !Z.pow_add_r by lia. done.
  - by apply shr_1_m.
Qed.

Lemma round_nearest_even_cases (m : Z) (l : location) :
  round_nearest_even m l = m \/ round_nearest_even m l = m + 1.
Proof.
  destruct l as [|[]]; simpl; auto. destruct (Z.even m); auto.
Qed.

Lemma shr_record_of_loc_m (m : Z) (l : location) :
  shr_m (shr_record_of_loc m l) = m.
Proof. by destruct l as [|[]]. Qed.

(** A mantissa of at least 53 bits is cut down to its leading 53 bits,
    as long as the result is not below the normal range. *)
Lemma shr_fexp_normal (m : positive) (e : Z) (l : location) :
  53 <= Z.pos (digits2_pos m) ->
  -1074 <= e + Z.pos (digits2_pos m) - 53 ->
  exists mrs,
    shr_fexp F64.prec F64.emax (Z.pos m) e l
    = (mrs, e + Z.pos (digits2_pos m) - 53) /\
    2 ^ 52 <= shr_m mrs < 2 ^ 53 /\
    (Z.pos (digits2_pos m) = 53 -> mrs = shr_record_of_loc (Z.pos m) l).
Proof.
  intros Hd He. pose proof (digits2_pos_bounds m) as Hm.
  unfold shr_fexp, fexp, emin, Zdigits2, F64.prec, F64.emax.
  rewrite Z.max_l by lia.
  replace (Z.pos (digits2_pos m) + e - 53 - e)
    with (Z.pos (digits2_pos m) - 53) by lia.
  destruct (Z.pos (digits2_pos m) - 53) as [|k|k] eqn:Hk; [| |lia].
  - exists (shr_record_of_loc (Z.pos m) l). simpl.
    replace (Z.pos (digits2_pos m)) with 53 in * by lia.
    split; [f_equal; lia|]. split; [|done].
    rewrite shr_record_of_loc_m. exact Hm.
  - eexists. simpl. split; [f_equal; lia|]. split; [|lia].
    rewrite iter_shr_1_m by (rewrite shr_record_of_loc_m; lia).
    rewrite shr_record_of_loc_m.
    replace (Z.pos (digits2_pos m)) with (53 + Z.pos k) in Hm by lia.
    replace (53 + Z.pos k - 1) with (52 + Z.pos k) in Hm by lia.
    rewrite !Z.pow_add_r in Hm by lia.
    assert (0 < 2 ^ Z.pos k) by (apply Z.pow_pos_nonneg; lia).
    split.
    + apply Z.div_le_lower_bound; lia.
    + apply Z.div_lt_upper_bound; lia.
Qed.

(** Rounding a mantissa of at least 53 bits gives a normal number, as long
    as the result stays within the normal range. *)
Lemma binary_round_aux_normal (sx : bool) (m : positive) (e : Z) (l : location) :
  53 <= Z.pos (digits2_pos m) ->
  -1074 <= e + Z.pos (digits2_pos m) - 53 ->
  e + Z.pos (digits2_pos m) - 52 <= 971 ->
  exists m' e',
    binary_round_aux F64.prec F64.emax sx (Z.pos m) e l = S754_finite sx m' e' /\
    Z.pos (digits2_pos m') = 53 /\
    e + Z.pos (digits2_pos m) - 53 <= e' <= e + Z.pos (digits2_pos m) - 52 /\
    (Z.pos (digits2_pos m) = 53 -> l = loc_Exact -> m' = m /\ e' = e).
Proof.
  intros Hd Hlo Hhi. unfold binary_round_aux.
  destruct (shr_fexp_normal m e l Hd Hlo) as (mrs & -> & Hmrs & Hsame).
  set (e1 := e + Z.pos (digits2_pos m) - 53) in *.
  set (r := round_nearest_even (shr_m mrs) (loc_of_shr_record mrs)).
  assert (2 ^ 52 <= r <= 2 ^ 53) as Hr.
  { subst r. destruct (round_nearest_even_cases (shr_m mrs) (loc_of_shr_record mrs))
      as [-> | ->]; lia. }
  destruct r as [|rp|rp] eqn:Hrp; [lia| |lia].
  assert (Z.pos (digits2_pos rp) = 53 \/ Z.pos (digits2_pos rp) = 54) as Hdr.
  { destruct (Z.eq_dec (Z.pos rp) (2 ^ 53)) as [Heq|Hne].
    - right. apply digits2_pos_unique. rewrite Heq. simpl. lia.
    - left. apply digits2_pos_unique. simpl. lia. }
  destruct (shr_fexp_normal rp e1 loc_Exact) as (mrs2 & -> & Hmrs2 & Hsame2);
    [lia|lia|].
  destruct (shr_m mrs2) as [|m2|m2] eqn:Hm2; [lia| |lia].
  assert ((e1 + Z.pos (digits2_pos rp) - 53 <=? F64.emax - F64.prec) = true) as ->.
  { apply Z.leb_le. unfold F64.emax, F64.prec. lia. }
  exists m2, (e1 + Z.pos (digits2_pos rp) - 53).
  split; [done|]. split; [by apply digits2_pos_unique|]. split; [lia|].
  intros H53 ->. specialize (Hsame H53). subst mrs.
  simpl in Hrp. subst r. injection Hrp as ->.
  rewrite (Hsame2 H53) in Hm2. simpl in Hm2.
  injection Hm2 as ->. split; [done|]. subst e1. lia.
Qed.

Lemma digits2_pos_iter_xO (m k : positive) :
  digits2_pos (Pos.iter xO m k) = (digits2_pos m + k)%positive.
Proof.
  induction k as [|k IH] using Pos.peano_ind.
  - simpl. lia.
  - rewrite Pos.iter_succ. simpl. rewrite IH. lia.
Qed.

(** ** binary64: integers and quotients of normal numbers *)

(** A non-zero [int] converts to a normal number. *)
Lemma of_int_normal (z : Z) :
  z <> 0 -> GoInt.in_range z ->
  exists m e,
    F64.of_int z = S754_finite (z <? 0) m e /\
    Z.pos (digits2_pos m) = 53 /\ -52 <= e <= 12.
Proof.
  intros Hz [Hlo Hhi]. unfold GoInt.minInt, GoInt.maxInt in *.
  assert (forall sx p, Z.pos p <= 2 ^ 63 ->
            exists m e,
              binary_round F64.prec F64.emax sx p 0 = S754_finite sx m e /\
              Z.pos (digits2_pos m) = 53 /\ -52 <= e <= 12) as Hround.
  { intros sx p Hp. pose proof (digits2_pos_bounds p) as Hd.
    assert (Z.pos (digits2_pos p) <= 64).
    { destruct (Z.le_gt_cases (Z.pos (digits2_pos p)) 64) as [|Hgt]; [done|].
      assert (2 ^ 64 <= 2 ^ (Z.pos (digits2_pos p) - 1))
        by (apply Z.pow_le_mono_r; lia).
      lia. }
    unfold binary_round, shl_align, fexp, emin, F64.prec, F64.emax.
    rewrite Z.max_l by lia.
    replace (Z.pos (digits2_pos p) + 0 - 53 - 0)
      with (Z.pos (digits2_pos p) - 53) by lia.
    destruct (Z.pos (digits2_pos p) - 53) as [|k|k] eqn:Hk.
    - destruct (binary_round_aux_normal sx p 0 loc_Exact)
        as (m & e & Hr & Hm & He & _); [lia..|].
      exists m, e. split; [exact Hr|]. split; [done|]. lia.
    - destruct (binary_round_aux_normal sx p 0 loc_Exact)
        as (m & e & Hr & Hm & He & _); [lia..|].
      exists m, e. split; [exact Hr|]. split; [done|]. lia.
    - assert (Z.pos (digits2_pos (Pos.iter xO p k)) = 53) as Hd53.
      { rewrite digits2_pos_iter_xO. lia. }
      destruct (binary_round_aux_normal sx (Pos.iter xO p k)
                  (Z.pos (digits2_pos p) + 0 - 53) loc_Exact)
        as (m & e & Hr & Hm & He & _); [lia..|].
      exists m, e. split; [exact Hr|]. split; [done|]. lia. }
  unfold F64.of_int, binary_normalize.
  destruct z as [|p|p]; [done| |].
  - apply Hround. lia.
  - apply Hround. lia.
Qed.

(** The quotient of two normal numbers is a normal number, as long as it
    stays within the normal range. *)
Lemma div_normal (s1 s2 : bool) (m1 m2 : positive) (e1 e2 : Z) :
  Z.pos (digits2_pos m1) = 53 -> Z.pos (digits2_pos m2) = 53 ->
  -1021 <= e1 - e2 <= 1022 ->
  exists m e,
    F64.div (S754_finite s1 m1 e1) (S754_finite s2 m2 e2)
    = S754_finite (xorb s1 s2) m e /\
    Z.pos (digits2_pos m) = 53 /\ e1 - e2 - 53 <= e <= e1 - e2 - 51.
Proof.
  intros Hd1 Hd2 He.
  pose proof (digits2_pos_bounds m1) as Hm1. rewrite Hd1 in Hm1.
  pose proof (digits2_pos_bounds m2) as Hm2. rewrite Hd2 in Hm2.
  change (2 ^ (53 - 1)) with (2 ^ 52) in *.
  unfold F64.div, SFdiv, SFdiv_core_binary, fexp, emin, Zdigits2,
    F64.prec, F64.emax.
  rewrite Hd1, Hd2.
  replace (Z.min _ (e1 - e2)) with (e1 - e2 - 53) by lia.
  replace (e1 - e2 - (e1 - e2 - 53)) with 53 by lia.
  rewrite Z.shiftl_mul_pow2 by lia.
  pose proof (Z.div_eucl_eq (Z.pos m1 * 2 ^ 53) (Z.pos m2)) as Heq.
  pose proof (Z.mod_pos_bound (Z.pos m1 * 2 ^ 53) (Z.pos m2)) as Hmod.
  unfold Z.modulo in Hmod.
  destruct (Z.div_eucl (Z.pos m1 * 2 ^ 53) (Z.pos m2)) as [q r].
  specialize (Heq ltac:(lia)). specialize (Hmod ltac:(lia)).
  assert (2 ^ 52 <= q < 2 ^ 54) as Hq.
  { change (2 ^ 54) with (2 * 2 ^ 53). change (2 ^ 53) with (2 * 2 ^ 52) in *.
    split; nia. }
  destruct q as [|qp|qp]; [lia| |lia].
  assert (Z.pos (digits2_pos qp) = 53 \/ Z.pos (digits2_pos qp) = 54) as Hdq.
  { destruct (Z.lt_ge_cases (Z.pos qp) (2 ^ 53)).
    - left. apply digits2_pos_unique. simpl. lia.
    - right. apply digits2_pos_unique. simpl. lia. }
  destruct (binary_round_aux_normal (xorb s1 s2) qp (e1 - e2 - 53)
              (new_location (Z.pos m2) r))
    as (m & e & Hr & Hm & Hbound & _); [lia..|].
  exists m, e. split; [exact Hr|]. split; [done|]. lia.
Qed.

(** Dividing a normal number by [2^k] lowers its exponent by [k] and leaves
    the mantissa alone, as long as the quotient is a normal number. *)
Lemma div_pow2_exact (s : bool) (m : positive) (e k : Z) :
  Z.pos (digits2_pos m) = 53 -> -1073 <= e - k -> e - k <= 971 ->
  F64.div (S754_finite s m e) (S754_finite false 4503599627370496 (k - 52))
  = S754_finite s m (e - k).
Proof.
  intros Hd Hlo Hhi.
  unfold F64.div, SFdiv, SFdiv_core_binary, fexp, emin, Zdigits2,
    F64.prec, F64.emax.
  rewrite Hd. change (Z.pos (digits2_pos 4503599627370496)) with 53.
  replace (Z.min _ (e - (k - 52))) with (e - k - 1) by lia.
  replace (e - (k - 52) - (e - k - 1)) with 53 by lia.
  rewrite Z.shiftl_mul_pow2 by lia.
  assert (Z.div_eucl (Z.pos m * 2 ^ 53) 4503599627370496 = (Z.pos m~0, 0)) as ->.
  { pose proof (Z.div_eucl_eq (Z.pos m * 2 ^ 53) 4503599627370496) as Heq.
    pose proof (Z.mod_pos_bound (Z.pos m * 2 ^ 53) 4503599627370496) as Hmod.
    unfold Z.modulo in Hmod.
    destruct (Z.div_eucl (Z.pos m * 2 ^ 53) 4503599627370496) as [q r].
    specialize (Heq ltac:(lia)). specialize (Hmod ltac:(lia)).
    change (2 ^ 53) with (2 * 4503599627370496) in Heq.
    rewrite Pos2Z.inj_xO. f_equal; lia. }
  change (new_location 4503599627370496 0) with loc_Exact.
  assert (xorb s false = s) as -> by (by destruct s).
  unfold binary_round_aux, shr_fexp at 1, fexp, emin, Zdigits2.
  simpl digits2_pos. rewrite Pos2Z.inj_succ, Hd.
  rewrite Z.max_l by lia.
  replace (Z.succ 53 + (e - k - 1) - 53 - (e - k - 1)) with 1 by lia.
  simpl shr. simpl round_nearest_even.
  destruct (shr_fexp_normal m (e - k - 1 + 1) loc_Exact) as (mrs & Hshr & _ & Hsame);
    [lia..|].
  rewrite (Hsame Hd) in Hshr.
  change (shr_fexp 53 1024) with (shr_fexp F64.prec F64.emax).
  change (round_nearest_even _ _) with (Z.pos m).
  rewrite Hshr. simpl shr_m.
  replace (e - k - 1 + 1 + Z.pos (digits2_pos m) - 53) with (e - k) by lia.
  by replace (e - k <=? 1024 - 53) with true by (symmetry; apply Z.leb_le; lia).
Qed.

(** The two constants: [1024] and [1048576] as [float64]. *)
Lemma of_int_1024 : F64.of_int 1024 = S754_finite false 4503599627370496 (10 - 52).
Proof. reflexivity. Qed.

Lemma of_int_1048576 :
  F64.of_int 1048576 = S754_finite false 4503599627370496 (20 - 52).
Proof. reflexivity. Qed.

(** Dividing by 1024 twice is dividing by 1048576, for zeros, infinities,
    NaN, and every normal number at least [2^-990] in magnitude. *)
Lemma div_1024_twice (x : spec_float) :
  (F64.is_normal x = true -> -1043 <= F64.exponent x) ->
  match x with S754_finite _ _ _ => F64.is_normal x = true | _ => True end ->
  F64.div (F64.div x (F64.of_int 1024)) (F64.of_int 1024)
  = F64.div x (F64.of_int 1048576).
Proof.
  intros He Hn. destruct x as [[]|[]| |s m e]; try reflexivity.
  simpl in He. specialize (He Hn). unfold F64.is_normal in Hn.
  apply andb_prop in Hn as [Hd%Z.eqb_eq Hmax%Z.leb_le].
  unfold F64.prec, F64.emax in *.
  rewrite of_int_1024, of_int_1048576.
  rewrite !div_pow2_exact by (done || lia).
  f_equal. lia.
Qed.

(** ** The statistics *)

Lemma seconds_normal (elapsed : Z) :
  elapsed <> 0 -> GoInt.in_range elapsed ->
  exists m e,
    seconds elapsed = S754_finite (elapsed <? 0) m e /\
    Z.pos (digits2_pos m) = 53 /\ -82 <= e <= -16.
Proof.
  intros Hne Hrange.
  destruct (of_int_normal elapsed Hne Hrange) as (m1 & e1 & H1 & Hd1 & He1).
  unfold seconds. rewrite H1.
  change (F64.of_int time_Second) with (S754_finite false 8388608000000000 (-23)).
  destruct (div_normal (elapsed <? 0) false m1 8388608000000000 e1 (-23))
    as (m & e & -> & Hd & He); [done|done|lia|].
  exists m, e. rewrite xorb_false_r. split; [done|]. split; [done|]. lia.
Qed.

(** The quotient [float64(t)/seconds] of an [int] and a measured duration
    is a zero, an infinity, NaN, or a normal number far above the
    subnormal range. *)
Lemma quotient_scaled (t elapsed : Z) :
  GoInt.in_range t -> GoInt.in_range elapsed ->
  match F64.div (F64.of_int t) (seconds elapsed) with
  | S754_finite _ m e => Z.pos (digits2_pos m) = 53 /\ -89 <= e <= 44
  | _ => True
  end.
Proof.
  intros Ht He.
  destruct (Z.eq_dec elapsed 0) as [->|Hne].
  { change (seconds 0) with (S754_zero false).
    destruct (Z.eq_dec t 0) as [->|Htne]; [done|].
    destruct (of_int_normal t Htne Ht) as (m1 & e1 & -> & _). done. }
  destruct (seconds_normal elapsed Hne He) as (m2 & e2 & -> & Hd2 & He2).
  destruct (Z.eq_dec t 0) as [->|Htne]; [done|].
  destruct (of_int_normal t Htne Ht) as (m1 & e1 & -> & Hd1 & He1).
  destruct (div_normal (t <? 0) (elapsed <? 0) m1 m2 e1 e2)
    as (m & e & -> & Hd & Hbound); [done|done|lia|].
  split; [done|lia].
Qed.

(** C1, as the code has it. For [int]s [c] and [s] whose product is an
    [int] too, and a duration [e] in seconds measured as the code measures
    it, the reported throughput is [c / e] and the reported bandwidth is
    [(c × s) / e / 1048576], in binary64; for [c = 10], [s = 1048576] and
    two seconds both are 5. *)
Theorem statistics_formulas (c s : Z) (e : spec_float) :
  GoInt.in_range c -> GoInt.in_range s -> GoInt.in_range (c * s) ->
  (exists elapsed, GoInt.in_range elapsed /\ e = seconds elapsed) ->
  speed c e = spec_throughput c e /\
  bandwidth c s e = spec_bandwidth c s e /\
  seconds 2000000000 = F64.of_int 2 /\
  speed 10 (F64.of_int 2) = F64.of_int 5 /\
  bandwidth 10 1048576 (F64.of_int 2) = F64.of_int 5.
Proof.
  intros Hc Hs Hcs (elapsed & Helapsed & ->).
  split; [reflexivity|]. split; [|by repeat split].
  unfold bandwidth, spec_bandwidth, totalSize, GoInt.mul.
  rewrite wrap_in_range by done.
  pose proof (quotient_scaled (c * s) elapsed Hcs Helapsed) as Hq.
  apply div_1024_twice.
  - destruct (F64.div _ _) as [| | |sq m q]; simpl; try done. lia.
  - destruct (F64.div _ _) as [| | |sq m q]; try done.
    destruct Hq as [Hd Hq]. unfold F64.is_normal, F64.emax, F64.prec.
    rewrite Hd. apply andb_true_intro. split; [done|]. apply Z.leb_le. lia.
Qed.

Lemma statistics_formulas_witness :
  GoInt.in_range 3 /\ GoInt.in_range 1000 /\ GoInt.in_range (3 * 1000) /\
  (exists elapsed, GoInt.in_range elapsed /\ seconds 1500000000 = seconds elapsed) /\
  speed 3 (seconds 1500000000) = spec_throughput 3 (seconds 1500000000) /\
  bandwidth 3 1000 (seconds 1500000000)
  = spec_bandwidth 3 1000 (seconds 1500000000) /\
  seconds 2000000000 = F64.of_int 2 /\
  speed 10 (F64.of_int 2) = F64.of_int 5 /\
  bandwidth 10 1048576 (F64.of_int 2) = F64.of_int 5.
Proof.
  assert (forall z, GoInt.in_rangeb z = true -> GoInt.in_range z) as Hb.
  { intros z [H1%Z.leb_le H2%Z.leb_le]%andb_prop. by split. }
  assert (exists elapsed, GoInt.in_range elapsed /\
                          seconds 1500000000 = seconds elapsed) as He.
  { exists 1500000000. split; [by apply Hb|reflexivity]. }
  split; [by apply Hb|]. split; [by apply Hb|]. split; [by apply Hb|].
  split; [exact He|].
  exact (statistics_formulas 3 1000 (seconds 1500000000)
           (Hb 3 eq_refl) (Hb 1000 eq_refl) (Hb (3 * 1000) eq_refl) He).
Defined.

(** C1 as worded fails when [conc * *objectSize] does not fit the [int]:
    [CONCURRENCY=-9223372036854775808] parses, no upload is made, and with
    [-size 2] the product wraps to 0, so the bandwidth reported after two
    seconds is 0 and not [-2^43]. With 3037000500 objects of 3037000500
    bytes the product wraps below zero and the reported bandwidth is
    negative. *)
Lemma bandwidth_wraps_around :
  Atoi "-9223372036854775808" = inl (-9223372036854775808) /\
  GoInt.in_range (-9223372036854775808) /\ GoInt.in_range 2 /\
  totalSize (-9223372036854775808) 2 = 0 /\
  bandwidth (-9223372036854775808) 2 (seconds 2000000000) = S754_zero false /\
  spec_bandwidth (-9223372036854775808) 2 (seconds 2000000000)
  = S754_finite true 4503599627370496 (-9) /\
  bandwidth (-9223372036854775808) 2 (seconds 2000000000)
  <> spec_bandwidth (-9223372036854775808) 2 (seconds 2000000000) /\
  totalSize 3037000500 3037000500 = -9223372036709301616 /\
  fmt_f 0 6 (bandwidth 3037000500 3037000500 (seconds 2000000000))
  = "-4398046511034.632324" /\
  fmt_f 0 6 (spec_bandwidth 3037000500 3037000500 (seconds 2000000000))
  = "4398046511173.367188".
Proof.
  split; [reflexivity|]. split; [by vm_compute|]. split; [by vm_compute|].
  split; [reflexivity|]. split; [reflexivity|]. split; [reflexivity|].
  split; [discriminate|]. repeat split; vm_compute; reflexivity.
Qed.

(** With no concurrency the two numerators are zero: the statistics are
    zeros when time has passed and NaN when the clock has not moved. *)
Lemma zero_statistics (size elapsed : Z) :
  GoInt.in_range elapsed ->
  (elapsed <> 0 ->
   speed 0 (seconds elapsed) = S754_zero (elapsed <? 0) /\
   bandwidth 0 size (seconds elapsed) = S754_zero (elapsed <? 0)) /\
  (elapsed = 0 ->
   speed 0 (seconds elapsed) = S754_nan /\
   bandwidth 0 size (seconds elapsed) = S754_nan).
Proof.
  intros He. split.
  - intros Hne. destruct (seconds_normal elapsed Hne He) as (m & e & -> & _).
    unfold bandwidth, totalSize, GoInt.mul. rewrite Z.mul_0_l.
    by destruct (elapsed <? 0).
  - intros ->. by unfold bandwidth, totalSize, GoInt.mul.
Qed.

(** The report of a run without concurrency, field by field. *)
Lemma report_zero_concurrency (v : Variant) (w : World) :
  GoInt.in_range (clock_elapsed w) ->
  report v w 0
  = match v with
    | RecordLine =>
        let statistic :=
          if clock_elapsed w =? 0 then "NaN"
          else if clock_elapsed w <? 0 then "-0.000000" else "0.000000" in
        [String.concat ";"
           ["PUT"; Getenv w "NODE"; Getenv w "CONCURRENCY";
            fmt_d (objectSize w); fmt_d (metaCount w); fmt_d (metaSize w);
            Duration_String (clock_elapsed w); statistic; statistic;
            Time_Format (Time_UTC (time_Now w (clock_start w)));
            Time_Format (time_Now w (clock_end w))]
           +:+ newline]
    | HumanReadable =>
        let statistic :=
          if clock_elapsed w =? 0 then " NaN"
          else if clock_elapsed w <? 0 then "  -0" else "   0" in
        ["Elapsed time : " +:+ Duration_String (clock_elapsed w) +:+ newline;
         "Speed        : " +:+ statistic +:+ " objs/sec" +:+ newline;
         "Bandwidth    : " +:+ statistic +:+ " MBit/sec" +:+ newline]
    end.
Proof.
  intros He.
  destruct (zero_statistics (objectSize w) (clock_elapsed w) He) as [Hnum Hnan].
  unfold report, report_fields.
  destruct (Z.eqb_spec (clock_elapsed w) 0) as [Hz|Hnz].
  - destruct (Hnan Hz) as [-> ->]. by destruct v.
  - destruct (Hnum Hnz) as [-> ->].
    by destruct v, (clock_elapsed w <? 0).
Qed.

(** C8, as the code has it. When [CONCURRENCY] parses to 0 and the size is
    [>= 0] the run starts no goroutine and no upload, the counter of the
    [WaitGroup] is 0 all along so that [wg.Wait()] does not block, and the
    run prints its report and ends with status 0. The divisions are
    binary64 divisions and cannot fail: throughput and bandwidth are both
    zero when the elapsed time is not zero, and both NaN when it is zero,
    and the report shows them so: [0.000000] (or [-0.000000] under a clock
    that went back) and [NaN] in the record line, [0] and [NaN] in the
    lines of the sibling revision. *)
Theorem zero_concurrency_statistics (v : Variant) (w : World) :
  Atoi (Getenv w "CONCURRENCY") = inl 0 ->
  0 <= objectSize w <= GoInt.maxInt ->
  GoInt.in_range (clock_elapsed w) ->
  (forall p, reachable v w p ->
     uploads (trace p) = [] /\ tasks p = [] /\ wg p = 0 /\
     (exited p = None \/ exited p = Some 0)) /\
  (exists p, reachable v w p /\ exited p = Some 0 /\
             stdout (trace p) = report v w 0) /\
  (clock_elapsed w <> 0 ->
   speed 0 (seconds (clock_elapsed w)) = S754_zero (clock_elapsed w <? 0) /\
   bandwidth 0 (objectSize w) (seconds (clock_elapsed w))
   = S754_zero (clock_elapsed w <? 0)) /\
  (clock_elapsed w = 0 ->
   speed 0 (seconds (clock_elapsed w)) = S754_nan /\
   bandwidth 0 (objectSize w) (seconds (clock_elapsed w)) = S754_nan) /\
  (exists p,
     reachable v w p /\ exited p = Some 0 /\
     stdout (trace p)
     = match v with
       | RecordLine =>
           let statistic :=
             if clock_elapsed w =? 0 then "NaN"
             else if clock_elapsed w <? 0 then "-0.000000" else "0.000000" in
           [String.concat ";"
              ["PUT"; Getenv w "NODE"; Getenv w "CONCURRENCY";
               fmt_d (objectSize w); fmt_d (metaCount w); fmt_d (metaSize w);
               Duration_String (clock_elapsed w); statistic; statistic;
               Time_Format (Time_UTC (time_Now w (clock_start w)));
               Time_Format (time_Now w (clock_end w))]
              +:+ newline]
       | HumanReadable =>
           let statistic :=
             if clock_elapsed w =? 0 then " NaN"
             else if clock_elapsed w <? 0 then "  -0" else "   0" in
           ["Elapsed time : " +:+ Duration_String (clock_elapsed w) +:+ newline;
            "Speed        : " +:+ statistic +:+ " objs/sec" +:+ newline;
            "Bandwidth    : " +:+ statistic +:+ " MBit/sec" +:+ newline]
       end).
Proof.
  intros Hc Hsize Helapsed.
  destruct (empty_run v w 0 Hc (Z.le_refl 0) Hsize) as (Hall & Hrun).
  split; [exact Hall|]. split; [exact Hrun|].
  destruct (zero_statistics (objectSize w) (clock_elapsed w) Helapsed)
    as [Hnum Hnan].
  split; [exact Hnum|]. split; [exact Hnan|].
  destruct Hrun as (p & Hp & Hexit & Hout). exists p.
  split; [exact Hp|]. split; [exact Hexit|].
  rewrite Hout. by apply report_zero_concurrency.
Qed.

Lemma zero_concurrency_statistics_witness :
  Atoi (Getenv (sample_world "0" "1" 4 1 2) "CONCURRENCY") = inl 0 /\
  0 <= objectSize (sample_world "0" "1" 4 1 2) <= GoInt.maxInt /\
  GoInt.in_range (clock_elapsed (sample_world "0" "1" 4 1 2)) /\
  (forall p, reachable RecordLine (sample_world "0" "1" 4 1 2) p ->
     uploads (trace p) = [] /\ tasks p = [] /\ wg p = 0 /\
     (exited p = None \/ exited p = Some 0)) /\
  (exists p, reachable RecordLine (sample_world "0" "1" 4 1 2) p /\
             exited p = Some 0 /\
             stdout (trace p) = report RecordLine (sample_world "0" "1" 4 1 2) 0) /\
  (clock_elapsed (sample_world "0" "1" 4 1 2) <> 0 ->
   speed 0 (seconds (clock_elapsed (sample_world "0" "1" 4 1 2)))
   = S754_zero (clock_elapsed (sample_world "0" "1" 4 1 2) <? 0) /\
   bandwidth 0 (objectSize (sample_world "0" "1" 4 1 2))
     (seconds (clock_elapsed (sample_world "0" "1" 4 1 2)))
   = S754_zero (clock_elapsed (sample_world "0" "1" 4 1 2) <? 0)) /\
  (clock_elapsed (sample_world "0" "1" 4 1 2) = 0 ->
   speed 0 (seconds (clock_elapsed (sample_world "0" "1" 4 1 2))) = S754_nan /\
   bandwidth 0 (objectSize (sample_world "0" "1" 4 1 2))
     (seconds (clock_elapsed (sample_world "0" "1" 4 1 2))) = S754_nan) /\
  (exists p,
     reachable RecordLine (sample_world "0" "1" 4 1 2) p /\ exited p = Some 0 /\
     stdout (trace p)
     = ["PUT;1;0;4;1;2;2s;0.000000;0.000000;2026-10-31T05:20:00.123Z;2026-10-31T05:20:02.123Z"
          +:+ newline]).
Proof.
  assert (0 <= objectSize (sample_world "0" "1" 4 1 2) <= GoInt.maxInt) as Hsize.
  { vm_compute. split; discriminate. }
  assert (GoInt.in_range (clock_elapsed (sample_world "0" "1" 4 1 2))) as He.
  { vm_compute. split; discriminate. }
  split; [reflexivity|]. split; [exact Hsize|]. split; [exact He|].
  exact (zero_concurrency_statistics RecordLine (sample_world "0" "1" 4 1 2)
           eq_refl Hsize He).
Defined.

(** C8 as worded fails on a negative size: with [CONCURRENCY=0] and
    [-size -1] the run panics in [bytes.Repeat], before the call of
    [parallelUploads]; nothing is printed, no statistics are reported and
    the process ends with status 2. *)
Lemma zero_concurrency_negative_size_crashes :
  Atoi (Getenv (sample_world "0" "1" (-1) 1 2) "CONCURRENCY") = inl 0 /\
  main_setup RecordLine (sample_world "0" "1" (-1) 1 2)
  = ([EvRepeat (-1); EvPanic "bytes: negative Repeat count"; EvExit 2],
     Crashed "bytes: negative Repeat count") /\
  stdout (fst (main_setup RecordLine (sample_world "0" "1" (-1) 1 2))) = [] /\
  ~ (exists p, reachable RecordLine (sample_world "0" "1" (-1) 1 2) p /\
               stdout (trace p)
               = report RecordLine (sample_world "0" "1" (-1) 1 2) 0).
Proof.
  split; [reflexivity|]. split; [reflexivity|]. split; [reflexivity|].
  intros (p & Hp & _). revert Hp.
  apply not_reachable_unless_ready. intros conc names data. discriminate.
Qed.

Example zero_concurrency_reports :
  report RecordLine (sample_world "0" "1" 4 1 2) 0
  = ["PUT;1;0;4;1;2;2s;0.000000;0.000000;2026-10-31T05:20:00.123Z;2026-10-31T05:20:02.123Z"
       +:+ newline] /\
  report RecordLine (still_world "0") 0
  = ["PUT;1;0;4;1;2;0s;NaN;NaN;2026-10-31T05:20:00.123Z;2026-10-31T05:20:00.123Z"
       +:+ newline] /\
  report HumanReadable (still_world "0") 0
  = ["Elapsed time : 0s" +:+ newline;
     "Speed        :  NaN objs/sec" +:+ newline;
     "Bandwidth    :  NaN MBit/sec" +:+ newline].
Proof. repeat split; vm_compute; reflexivity. Qed.

(** ** The record line *)

Example formatting_samples :
  Duration_String 0 = "0s" /\ Duration_String 999 = "999ns" /\
  Duration_String 1500000 = "1.5ms" /\ Duration_String 2000000000 = "2s" /\
  Duration_String 3723500000000 = "1h2m3.5s" /\
  fmt_f 0 6 (F64.of_int 5) = "5.000000" /\
  fmt_f 0 6 (speed 10 (seconds 3000000000)) = "3.333333" /\
  fmt_f 4 0 (speed 10 (seconds 4000000000)) = "   2" /\
  fmt_f 0 6 (speed 1 (seconds 0)) = "+Inf" /\
  Time_Format {| wall := 0; zone := 0 |} = "1970-01-01T00:00:00.000Z" /\
  Time_Format {| wall := 951782399999999999; zone := 0 |}
  = "2000-02-28T23:59:59.999Z" /\
  Time_Format {| wall := 951782400000000000; zone := 0 |}
  = "2000-02-29T00:00:00.000Z".
Proof. repeat split; vm_compute; reflexivity. Qed.

(** The line is [PUT] and the ten fields, joined by semicolons. *)
Lemma record_line_fields (w : World) (conc : Z) :
  report RecordLine w conc
  = [String.concat ";" ("PUT" :: report_fields w conc) +:+ newline] /\
  length (report_fields w conc) = 10%nat /\
  report_fields w conc !! 8%nat
  = Some (Time_Format {| wall := clock_start w; zone := 0 |}) /\
  report_fields w conc !! 9%nat
  = Some (Time_Format {| wall := clock_end w; zone := localZone w |}).
Proof. done. Qed.

(** C7, against the code. The start timestamp is printed from
    [time.Now().UTC()], the end timestamp from [time.Now()] alone: on a
    machine one hour east of UTC the end field of the line is the local
    wall clock, 06:20:02.123, followed by the letter Z, and not the UTC
    time 05:20:02.123Z of that instant. *)
Theorem end_timestamp_is_local_time :
  report RecordLine (eastern_world "1") 1
  = ["PUT;1;1;4;1;2;2s;0.500000;0.000002;2026-10-31T05:20:00.123Z;2026-10-31T06:20:02.123Z"
       +:+ newline] /\
  report_fields (eastern_world "1") 1 !! 9%nat = Some "2026-10-31T06:20:02.123Z" /\
  Time_Format (Time_UTC (time_Now (eastern_world "1") (clock_end (eastern_world "1"))))
  = "2026-10-31T05:20:02.123Z".
Proof. repeat split; vm_compute; reflexivity. Qed.

(** ** The process: the barrier *)

Lemma running_app (ts : list Task) (name : string) :
  running (ts ++ [TRun name]) = running ts + 1.
Proof. induction ts as [|t ts IH]; simpl; [done|]. rewrite IH. lia. Qed.

Lemma panicking_app (ts : list Task) (name : string) :
  panicking (ts ++ [TRun name]) = panicking ts.
Proof.
  unfold panicking. rewrite existsb_app. simpl. by rewrite !orb_false_r.
Qed.

Lemma running_insert (ts : list Task) (i : nat) (name : string) (t : Task) :
  ts !! i = Some (TRun name) -> is_running t = false ->
  running (<[i := t]> ts) = running ts - 1.
Proof.
  revert i. induction ts as [|t0 ts IH]; intros i Hi Ht; [done|].
  destruct i as [|i]; simpl in *.
  - injection Hi as ->. rewrite Ht. simpl. lia.
  - rewrite (IH i) by done. lia.
Qed.

Lemma running_nonneg (ts : list Task) : 0 <= running ts.
Proof. induction ts as [|[] ts IH]; simpl; lia. Qed.

Lemma running_lookup (ts : list Task) (i : nat) (name : string) :
  ts !! i = Some (TRun name) -> 0 < running ts.
Proof.
  revert i. induction ts as [|t ts IH]; intros i Hi; [done|].
  destruct i; simpl in *.
  - injection Hi as ->. simpl. pose proof (running_nonneg ts). lia.
  - specialize (IH i Hi). destruct (is_running t); lia.
Qed.

Lemma panicking_insert_done (ts : list Task) (i : nat) (name : string) :
  ts !! i = Some (TRun name) ->
  panicking (<[i := TDone]> ts) = panicking ts.
Proof.
  revert i. induction ts as [|t0 ts IH]; intros i Hi; [done|].
  destruct i as [|i]; simpl in *.
  - by injection Hi as ->.
  - unfold panicking in *. simpl. by rewrite (IH i).
Qed.

Lemma panicking_insert (ts : list Task) (i : nat) (name msg : string) :
  ts !! i = Some (TRun name) ->
  panicking (<[i := TPanicking msg]> ts) = true.
Proof.
  revert i. induction ts as [|t0 ts IH]; intros i Hi; [done|].
  destruct i as [|i]; simpl in *; [done|].
  unfold panicking in *. simpl. rewrite (IH i) by done. apply orb_true_r.
Qed.

Lemma upload_results_app (w : World) (tr1 tr2 : list Event) :
  upload_results w (tr1 ++ tr2) = upload_results w tr1 ++ upload_results w tr2.
Proof. apply omap_app. Qed.

Lemma upload_results_prints (w : World) (lines : list string) :
  upload_results w (EvPrint <$> lines) = [].
Proof. induction lines as [|l lines IH]; [done|]. exact IH. Qed.

Section Barrier.

Variable v : Variant.
Variable w : World.
Variable conc : Z.
Variable data : list Byte.byte.

Lemma step_invariant (p p' : Proc) :
  step v w conc data p p' ->
  run_invariant v w conc p -> run_invariant v w conc p'.
Proof.
  intros Hstep (Hwg & Hpc & Hexit & Hfail). unfold run_invariant.
  destruct Hstep as
    [p name rest Hrun Hp | p Hrun Hp
    | p i name fuel meta cur Hrun Hi Hmeta Hup
    | p i name fuel meta cur err Hrun Hi Hmeta Hup
    | p i name fuel msg Hrun Hi Hmeta
    | p i msg Hrun Hi | p Hrun Hp Hzero | p Hrun Hp | p Hrun Hp Hnone];
    simpl; rewrite ?Hp in Hpc; rewrite ?Hp; simpl in *.
  - rewrite running_app, panicking_app, stdout_app, upload_results_app, Hpc.
    simpl. rewrite !app_nil_r. repeat split; (done || lia).
  - repeat split; done.
  - rewrite (running_insert _ _ _ _ Hi) by done.
    rewrite (panicking_insert_done _ _ _ Hi).
    rewrite stdout_app, upload_results_app. simpl. rewrite Hup, app_nil_r.
    pose proof (running_lookup _ _ _ Hi) as Hpos.
    split; [lia|]. split.
    + destruct (pc p); (done || lia).
    + split; [done|]. destruct Hfail as [Hfail|Hfail]; [left|by right].
      apply Forall_app. split; [done|by constructor].
  - rewrite (running_insert _ _ _ _ Hi) by done.
    rewrite (panicking_insert _ _ _ _ Hi).
    rewrite stdout_app, upload_results_app. simpl. rewrite app_nil_r.
    pose proof (running_lookup _ _ _ Hi) as Hpos.
    split; [lia|]. split.
    + destruct (pc p); (done || lia).
    + split; [done|by right].
  - rewrite (running_insert _ _ _ _ Hi) by done.
    rewrite (panicking_insert _ _ _ _ Hi).
    rewrite stdout_app, upload_results_app. simpl. rewrite app_nil_r.
    pose proof (running_lookup _ _ _ Hi) as Hpos.
    split; [lia|]. split.
    + destruct (pc p); (done || lia).
    + split; [done|by right].
  - rewrite stdout_app, upload_results_app. simpl. rewrite !app_nil_r.
    repeat split; done.
  - repeat split; (done || lia).
  - rewrite stdout_app, stdout_prints, upload_results_app, upload_results_prints.
    destruct Hpc as [Hz ->]. rewrite app_nil_r. repeat split; done.
  - rewrite stdout_app, upload_results_app. simpl. rewrite !app_nil_r.
    split; [done|]. split; [done|]. split; [|done].
    intros _. split; [done|].
    unfold panicking. clear -Hnone. induction (tasks p) as [|t ts IH]; [done|].
    simpl in *. apply andb_prop in Hnone as [Ht Hts].
    rewrite (IH Hts). by destruct (is_panicking t).
Qed.

Lemma steps_invariant (p p' : Proc) :
  rtc (step v w conc data) p p' ->
  run_invariant v w conc p -> run_invariant v w conc p'.
Proof. induction 1; eauto using step_invariant. Qed.

End Barrier.

Lemma stdout_setup (names : list string) (rest : list Event) :
  stdout ((EvAppend <$> names) ++ rest) = stdout rest.
Proof. induction names as [|n names IH]; [done|]. exact IH. Qed.

Lemma upload_results_setup (w : World) (names : list string) (rest : list Event) :
  upload_results w ((EvAppend <$> names) ++ rest) = upload_results w rest.
Proof. induction names as [|n names IH]; [done|]. exact IH. Qed.

Lemma main_setup_quiet (v : Variant) (w : World) :
  stdout (fst (main_setup v w)) = [] /\
  upload_results w (fst (main_setup v w)) = [].
Proof.
  unfold main_setup. destruct (Atoi _) as [c|]; [|done].
  destruct (bytes_Repeat _ _); unfold fst;
    by rewrite <- ?app_assoc, stdout_setup, upload_results_setup.
Qed.

(** Every state of every run satisfies the invariant. *)
Lemma reachable_invariant (v : Variant) (w : World) (p : Proc) :
  reachable v w p ->
  exists conc, (exists tr names data, main_setup v w = (tr, Ready conc names data)) /\
               run_invariant v w conc p.
Proof.
  intros (tr & conc & names & data & Hsetup & Hrun). exists conc.
  split; [by eauto|].
  apply (steps_invariant _ _ _ _ _ _ Hrun).
  destruct (main_setup_quiet v w) as [Hout Hup]. rewrite Hsetup in Hout, Hup.
  simpl in Hout, Hup. unfold run_invariant, launch. simpl.
  rewrite Hup. repeat split; (done || by left).
Qed.

(** The barrier holds: a line reaches standard output only once [main] is
    past [wg.Wait()], when no launched upload is still under way. *)
Lemma report_after_uploads (v : Variant) (w : World) (p : Proc) :
  reachable v w p -> stdout (trace p) <> [] ->
  pc p = Returned /\ running (tasks p) = 0 /\ wg p = 0.
Proof.
  intros Hp Hout. apply reachable_invariant in Hp as (conc & _ & Hwg & Hpc & _).
  destruct (pc p); try done; destruct Hpc as [Hz Hs]; try done.
  repeat split; [done|lia].
Qed.

(** A run ends with status 0 only when every upload it made succeeded,
    and then it has printed its report. *)
Lemma clean_exit (v : Variant) (w : World) (p : Proc) :
  reachable v w p -> exited p = Some 0 ->
  Forall (fun r => r = None) (upload_results w (trace p)) /\
  exists conc, stdout (trace p) = report v w conc.
Proof.
  intros Hp Hexit.
  apply reachable_invariant in Hp as (conc & _ & _ & Hpc & Hz & Hfail).
  destruct (Hz Hexit) as [Hret Hnone]. rewrite Hret in Hpc.
  split; [|exists conc; by destruct Hpc].
  destruct Hfail as [Hfail|Hfail]; [done|congruence].
Qed.

(** After a failed upload the process never ends with status 0. *)
Lemma failed_upload_no_clean_exit (v : Variant) (w : World) (p : Proc) :
  reachable v w p ->
  Exists (fun r => r <> None) (upload_results w (trace p)) ->
  exited p <> Some 0.
Proof.
  intros Hp Hfail Hexit. destruct (clean_exit v w p Hp Hexit) as [Hall _].
  apply Exists_exists in Hfail as (r & Hr & Hne).
  rewrite Forall_forall in Hall. by apply Hne, Hall.
Qed.

(** C4, against the code. A goroutine whose upload fails panics with
    [wg.Done()] deferred: the counter of the [WaitGroup] drops before the
    runtime ends the process. With one object and an upload that fails,
    [main] can pass [wg.Wait()] and print the record line while the
    goroutine is still panicking; the panic then ends the process. *)
Theorem report_printed_after_failed_upload :
  exists p,
    reachable RecordLine (failing_world "1") p /\
    upload_results (failing_world "1") (trace p)
    = [Some "RequestError: send request failed"] /\
    tasks p = [TPanicking "RequestError: send request failed"] /\
    stdout (trace p) = report RecordLine (failing_world "1") 1 /\
    stdout (trace p) <> [] /\
    exited p = None.
Proof.
  eexists. split.
  - eexists _, _, _, _. split; [reflexivity|].
    eapply rtc_l; [by eapply step_go|].
    eapply rtc_l; [by eapply step_launched|].
    eapply rtc_l.
    { eapply (step_upload_err _ _ _ _ _ 0 "object-1-1" 2); try reflexivity. }
    eapply rtc_l; [by eapply step_wait|].
    eapply rtc_l; [by eapply step_report|].
    apply rtc_refl.
  - vm_compute. repeat split; try reflexivity. discriminate.
Qed.

(** * Further properties of the driver *)

(** ** [randStringBytes] *)

Lemma get_letterBytes (k : nat) :
  (k < 52)%nat ->
  exists a, String.get k letterBytes = Some a /\ is_letter a = true.
Proof.
  intros Hk.
  do 52 (destruct k as [|k]; [by eexists|]). lia.
Qed.

Lemma letter_at_letter (r : Z) : is_letter (letter_at (r mod 52)) = true.
Proof.
  unfold letter_at.
  destruct (get_letterBytes (Z.to_nat (r mod 52))) as (a & -> & Ha); [|done].
  pose proof (Z.mod_pos_bound r 52). lia.
Qed.

Lemma randStringBytes_fill_letters (draws : nat -> Z) (cur n : nat) :
  all_letters (randStringBytes_fill draws cur n) = true.
Proof.
  revert cur. induction n as [|n IH]; intros cur; simpl; [done|].
  rewrite IH, andb_true_r. unfold rand_Intn. apply letter_at_letter.
Qed.

(** X1. For a length [n >= 0], [randStringBytes] returns a string of
    exactly [n] bytes, each of them an ASCII letter, and takes exactly [n]
    draws from the random source. *)
Theorem randStringBytes_letters (draws : nat -> Z) (cur : nat) (n : Z) :
  0 <= n ->
  exists s,
    randStringBytes draws cur n = Ok (s, (cur + Z.to_nat n)%nat) /\
    String.length s = Z.to_nat n /\
    all_letters s = true.
Proof.
  intros Hn. unfold randStringBytes.
  destruct (n <? 0) eqn:Hneg; [apply Z.ltb_lt in Hneg; lia|].
  eexists. split; [done|]. split.
  - apply randStringBytes_fill_length.
  - apply randStringBytes_fill_letters.
Qed.

Lemma randStringBytes_letters_witness :
  0 <= 3 /\
  exists s,
    randStringBytes (fun n => Z.of_nat n * 30) 0 3 = Ok (s, (0 + Z.to_nat 3)%nat) /\
    String.length s = Z.to_nat 3 /\
    all_letters s = true.
Proof.
  split; [lia|].
  apply (randStringBytes_letters (fun n => Z.of_nat n * 30) 0 3). lia.
Defined.

(** ** The metadata map, again *)

(** X2. Whenever the metadata part of [uploadBlob] in [parallel-put.go]
    returns a map, all its entries hold one and the same string, made of
    [metaSize] ASCII letters, and [metaSize] draws were taken from the
    random source, however many entries there are. *)
Theorem metadata_shares_one_value (fuel : nat) (draws : nat -> Z)
    (cur cur' : nat) (m v : Z) (meta : gmap string string) :
  m < GoInt.maxInt ->
  uploadBlob_meta fuel draws cur m v = Some (Ok (meta, cur')) ->
  exists val,
    String.length val = Z.to_nat v /\ all_letters val = true /\
    cur' = (cur + Z.to_nat v)%nat /\
    map_Forall (fun _ x => x = val) meta.
Proof.
  intros Hm. unfold uploadBlob_meta, randStringBytes.
  destruct (v <? 0) eqn:Hv; [done|].
  destruct (meta_loop _ _ _ _ _) as [meta'|] eqn:Hloop; [|done].
  intros [= <- <-].
  exists (randStringBytes_fill draws cur (Z.to_nat v)).
  split; [apply randStringBytes_fill_length|].
  split; [apply randStringBytes_fill_letters|]. split; [done|].
  destruct (Z.le_gt_cases 0 m) as [Hpos|Hneg].
  - apply meta_loop_sound in Hloop as [_ Hval]; [|lia..].
    intros k x Hk. apply Hval in Hk as [->|Hk]; [done|].
    by rewrite lookup_empty in Hk.
  - destruct fuel as [|fuel]; [done|]. simpl in Hloop.
    destruct (1 <=? m) eqn:Hle; [apply Z.leb_le in Hle; lia|].
    injection Hloop as <-. apply map_Forall_empty.
Qed.

Lemma metadata_shares_one_value_witness :
  3 < GoInt.maxInt /\
  (exists meta,
     uploadBlob_meta 4 (fun n => Z.of_nat n) 0 3 2 = Some (Ok (meta, 2%nat)) /\
     exists val,
       String.length val = Z.to_nat 2 /\ all_letters val = true /\
       2%nat = (0 + Z.to_nat 2)%nat /\
       map_Forall (fun _ x => x = val) meta).
Proof.
  split; [reflexivity|].
  eexists. split; [vm_compute; reflexivity|].
  eapply (metadata_shares_one_value 4 (fun n => Z.of_nat n) 0 2 3 2);
    [reflexivity|vm_compute; reflexivity].
Defined.

(** X3. With a meta-count that is zero or negative (and a meta-size
    [>= 0]) the loop of [uploadBlob] does not run: the map is empty, yet
    the random value was generated and its draws are spent. *)
Theorem metadata_empty_without_count (fuel : nat) (draws : nat -> Z)
    (cur : nat) (m v : Z) :
  m <= 0 -> 0 <= v -> (0 < fuel)%nat ->
  uploadBlob_meta fuel draws cur m v = Some (Ok (∅, (cur + Z.to_nat v)%nat)).
Proof.
  intros Hm Hv Hfuel. unfold uploadBlob_meta, randStringBytes.
  destruct (v <? 0) eqn:Hneg; [apply Z.ltb_lt in Hneg; lia|].
  destruct fuel as [|fuel]; [lia|]. simpl.
  by destruct (1 <=? m) eqn:Hle; [apply Z.leb_le in Hle; lia|].
Qed.

Lemma metadata_empty_without_count_witness :
  -2 <= 0 /\ 0 <= 5 /\ (0 < 1)%nat /\
  uploadBlob_meta 1 (fun n => Z.of_nat n) 7 (-2) 5
  = Some (Ok (∅, (7 + Z.to_nat 5)%nat)).
Proof.
  split; [lia|]. split; [lia|]. split; [lia|].
  apply (metadata_empty_without_count 1 (fun n => Z.of_nat n) 7 (-2) 5); lia.
Defined.

(** ** The goroutines and the object names *)

Lemma launched_app (tr1 tr2 : list Event) :
  launched (tr1 ++ tr2) = launched tr1 ++ launched tr2.
Proof. apply omap_app. Qed.

Lemma launched_prints (lines : list string) : launched (EvPrint <$> lines) = [].
Proof. induction lines as [|l lines IH]; [done|]. exact IH. Qed.

Lemma launched_setup (names : list string) (rest : list Event) :
  launched ((EvAppend <$> names) ++ rest) = launched rest.
Proof. induction names as [|n names IH]; [done|]. exact IH. Qed.

Lemma main_setup_launched (v : Variant) (w : World) :
  launched (fst (main_setup v w)) = [].
Proof.
  unfold main_setup. destruct (Atoi _) as [c|]; [|done].
  destruct (bytes_Repeat _ _); unfold fst;
    by rewrite <- ?app_assoc, launched_setup.
Qed.

Lemma running_names_app (ts : list Task) (name : string) :
  running_names (ts ++ [TRun name]) = running_names ts ++ [name].
Proof. unfold running_names. by rewrite omap_app. Qed.

Lemma done_count_app (ts : list Task) (name : string) :
  done_count (ts ++ [TRun name]) = done_count ts.
Proof. induction ts as [|[] ts IH]; simpl; by rewrite ?IH. Qed.

Lemma running_names_insert (ts : list Task) (i : nat) (name : string) (t : Task) :
  ts !! i = Some (TRun name) -> is_running t = false ->
  running_names ts ≡ₚ name :: running_names (<[i := t]> ts).
Proof.
  revert i. induction ts as [|t0 ts IH]; intros i Hi Ht; [done|].
  destruct i as [|i]; simpl in *.
  - injection Hi as ->. by destruct t.
  - specialize (IH i Hi Ht). destruct t0; simpl; [|done..].
    rewrite IH. apply Permutation_swap.
Qed.

Lemma done_count_insert_done (ts : list Task) (i : nat) (name : string) :
  ts !! i = Some (TRun name) ->
  done_count (<[i := TDone]> ts) = S (done_count ts).
Proof.
  revert i. induction ts as [|t0 ts IH]; intros i Hi; [done|].
  destruct i as [|i]; simpl in *.
  - by injection Hi as ->.
  - rewrite (IH i Hi). by destruct t0.
Qed.

Lemma done_count_insert_panicking (ts : list Task) (i : nat) (name msg : string) :
  ts !! i = Some (TRun name) ->
  done_count (<[i := TPanicking msg]> ts) = done_count ts.
Proof.
  revert i. induction ts as [|t0 ts IH]; intros i Hi; [done|].
  destruct i as [|i]; simpl in *.
  - by injection Hi as ->.
  - rewrite (IH i Hi). by destruct t0.
Qed.

(** Goroutines that neither run nor panic have all returned. *)
Lemma done_count_all (ts : list Task) :
  running ts = 0 -> panicking ts = false -> done_count ts = length ts.
Proof.
  induction ts as [|t ts IH]; [done|]. unfold panicking in *. simpl.
  pose proof (running_nonneg ts).
  destruct t; simpl; intros Hr Hp; try done; [lia|].
  f_equal. apply IH; [lia|done].
Qed.

Section Names.

Variable v : Variant.
Variable w : World.
Variable conc : Z.
Variable data : list Byte.byte.
Variable names : list string.

Lemma step_names_invariant (p p' : Proc) :
  step v w conc data p p' ->
  names_invariant names p -> names_invariant names p'.
Proof.
  intros Hstep (Hnames & Hlen & Hsub & Hdone). unfold names_invariant.
  destruct Hstep as
    [p name rest Hrun Hp | p Hrun Hp
    | p i name fuel meta cur Hrun Hi Hmeta Hup
    | p i name fuel meta cur err Hrun Hi Hmeta Hup
    | p i name fuel msg Hrun Hi Hmeta
    | p i msg Hrun Hi | p Hrun Hp Hzero | p Hrun Hp | p Hrun Hp Hnone];
    simpl; rewrite ?Hp in Hnames; simpl in Hnames;
    rewrite ?app_nil_r in Hnames;
    rewrite ?launched_app, ?uploads_app, ?launched_prints, ?uploads_prints,
      ?app_nil_r; simpl; rewrite ?app_nil_r.
  - rewrite running_names_app, done_count_app, !length_app, Hlen. simpl.
    split; [by rewrite <- app_assoc|]. split; [done|]. split; [|done].
    rewrite app_assoc. by apply submseteq_app.
  - by repeat split.
  - rewrite length_insert, fmap_app, length_app, (done_count_insert_done _ _ _ Hi).
    simpl. split; [done|]. split; [done|]. split; [|lia].
    rewrite <- app_assoc. simpl.
    rewrite <- (running_names_insert _ _ _ TDone Hi) by done. done.
  - rewrite length_insert, fmap_app, length_app,
      (done_count_insert_panicking _ _ _ _ Hi).
    simpl. split; [done|]. split; [done|]. split; [|lia].
    rewrite <- app_assoc. simpl.
    rewrite <- (running_names_insert _ _ _ (TPanicking err) Hi) by done. done.
  - rewrite length_insert, (done_count_insert_panicking _ _ _ _ Hi).
    split; [done|]. split; [done|]. split; [|done].
    etrans; [|exact Hsub]. apply submseteq_app; [done|].
    rewrite (running_names_insert _ _ _ (TPanicking msg) Hi) by done.
    by apply submseteq_cons.
  - by repeat split.
  - by repeat split.
  - split; [exact Hnames|]. split; [exact Hlen|]. split; [exact Hsub|exact Hdone].
  - rewrite Hp. simpl. rewrite app_nil_r. by repeat split.
Qed.

Lemma steps_names_invariant (p p' : Proc) :
  rtc (step v w conc data) p p' ->
  names_invariant names p -> names_invariant names p'.
Proof. induction 1; eauto using step_names_invariant. Qed.

End Names.

(** ** The metadata loop of the sibling revision *)

Lemma meta_loop_sibling_S (fuel : nat) (draws : nat -> Z) (cur : nat)
    (m n : Z) (meta : gmap string string) :
  meta_loop_sibling (S fuel) draws cur m n meta
  = if n <=? m
    then meta_loop_sibling fuel draws (cur + 1024)%nat m (GoInt.add n 1)
           (<[Sprintf_meta_key m := randStringBytes_fill draws cur 1024]> meta)
    else Some (meta, cur).
Proof. reflexivity. Qed.

Lemma meta_loop_sibling_spec (fuel : nat) (draws : nat -> Z) (cur : nat)
    (m n : Z) (meta : gmap string string) :
  m < GoInt.maxInt -> 0 <= n <= m + 1 ->
  (meta = ∅ \/ exists val, meta = {[Sprintf_meta_key m := val]} /\
                           String.length val = 1024%nat /\ all_letters val = true) ->
  (Z.to_nat (m + 1 - n) < fuel)%nat ->
  exists meta',
    meta_loop_sibling fuel draws cur m n meta
    = Some (meta', (cur + 1024 * Z.to_nat (m + 1 - n))%nat) /\
    (n = m + 1 -> meta' = meta) /\
    (n <= m -> exists val, meta' = {[Sprintf_meta_key m := val]} /\
                           String.length val = 1024%nat /\ all_letters val = true).
Proof.
  intros Hm. revert cur n meta.
  induction fuel as [|fuel IH]; intros cur n meta Hn Hmeta Hfuel; [lia|].
  rewrite meta_loop_sibling_S. destruct (n <=? m) eqn:Hle.
  - apply Z.leb_le in Hle.
    rewrite add_in_range
      by (unfold GoInt.in_range, GoInt.minInt, GoInt.maxInt in *; lia).
    set (val := randStringBytes_fill draws cur 1024).
    assert (<[Sprintf_meta_key m := val]> meta = {[Sprintf_meta_key m := val]})
      as ->.
    { destruct Hmeta as [->|(old & -> & _)].
      - apply insert_empty.
      - apply insert_singleton_eq. }
    destruct (IH (cur + 1024)%nat (n + 1) {[Sprintf_meta_key m := val]})
      as (meta' & -> & Hsame & Hone); [lia| |lia|].
    { right. exists val. split; [done|]. split.
      - apply randStringBytes_fill_length.
      - apply randStringBytes_fill_letters. }
    exists meta'. split; [f_equal; f_equal; lia|]. split; [lia|].
    intros _. destruct (Z.eq_dec n m) as [->|Hne].
    + rewrite Hsame by lia. exists val. split; [done|]. split.
      * apply randStringBytes_fill_length.
      * apply randStringBytes_fill_letters.
    + apply Hone. lia.
  - apply Z.leb_gt in Hle. exists meta.
    split; [f_equal; f_equal; lia|]. split; [done|lia].
Qed.

(** The metadata part of [uploadBlob] returns, by a map or by a panic, for
    every meta-count below the largest [int]. *)
Lemma uploadBlob_metadata_returns (v : Variant) (w : World) (cur : nat) :
  metaCount w < GoInt.maxInt ->
  exists fuel r, uploadBlob_metadata v fuel w cur = Some r.
Proof.
  intros Hm. destruct v; simpl.
  - unfold uploadBlob_meta, randStringBytes.
    destruct (metaSize w <? 0); [by exists 0%nat; eexists|].
    destruct (Z.le_gt_cases 0 (metaCount w)) as [Hpos|Hneg].
    + set (val := randStringBytes_fill _ _ _).
      destruct (meta_loop_ends (S (Z.to_nat (metaCount w))) (metaCount w) 1 val ∅)
        as [meta Hmeta]; [lia|lia|lia|].
      exists (S (Z.to_nat (metaCount w))). eexists. by rewrite Hmeta.
    + exists 1%nat. simpl.
      destruct (1 <=? metaCount w) eqn:Hle; [apply Z.leb_le in Hle; lia|].
      by eexists.
  - unfold uploadBlob_meta_sibling.
    destruct (Z.le_gt_cases 0 (metaCount w)) as [Hpos|Hneg].
    + destruct (meta_loop_sibling_spec (S (Z.to_nat (metaCount w + 1)))
                  (draws w) cur (metaCount w) 0 ∅)
        as (meta & Hmeta & _); [lia|lia|by left| |].
      { replace (metaCount w + 1 - 0) with (metaCount w + 1) by lia. lia. }
      exists (S (Z.to_nat (metaCount w + 1))). eexists. by rewrite Hmeta.
    + exists 1%nat. rewrite meta_loop_sibling_S.
      destruct (0 <=? metaCount w) eqn:Hle; [apply Z.leb_le in Hle; lia|].
      by eexists.
Qed.

(** What the loop of the sibling revision has done when it ends: every
    round wrote the key of the meta-count itself. *)
Lemma meta_loop_sibling_sound (fuel : nat) (draws : nat -> Z) (cur cur' : nat)
    (m n : Z) (meta meta' : gmap string string) :
  m < GoInt.maxInt -> 0 <= n ->
  meta_loop_sibling fuel draws cur m n meta = Some (meta', cur') ->
  (m < n -> meta' = meta) /\
  (n <= m ->
   exists val, meta' = <[Sprintf_meta_key m := val]> meta /\
               String.length val = 1024%nat).
Proof.
  intros Hm. revert cur n meta.
  induction fuel as [|fuel IH]; intros cur n meta Hn; [done|].
  rewrite meta_loop_sibling_S. destruct (n <=? m) eqn:Hle.
  - apply Z.leb_le in Hle.
    rewrite add_in_range
      by (unfold GoInt.in_range, GoInt.minInt, GoInt.maxInt in *; lia).
    intros [Hlast Hmore]%IH; [|lia]. split; [lia|]. intros _.
    destruct (Z.eq_dec n m) as [->|Hne].
    + rewrite Hlast by lia. eexists. split; [done|].
      apply randStringBytes_fill_length.
    + destruct Hmore as (val & -> & Hlen); [lia|].
      exists val. by rewrite insert_insert_eq.
  - apply Z.leb_gt in Hle. intros [= <- <-]. split; [done|lia].
Qed.

(** The metadata of an upload of the sibling revision: a single entry. *)
Lemma uploadBlob_meta_sibling_sound (fuel : nat) (draws : nat -> Z)
    (cur cur' : nat) (m : Z) (meta : gmap string string) :
  0 <= m < GoInt.maxInt ->
  uploadBlob_meta_sibling fuel draws cur m = Some (Ok (meta, cur')) ->
  exists val, meta = {[Sprintf_meta_key m := val]} /\
              String.length val = 1024%nat.
Proof.
  intros Hm. unfold uploadBlob_meta_sibling.
  destruct (meta_loop_sibling _ _ _ _ _ _) as [[meta' cur'']|] eqn:Hloop; [|done].
  intros [= <- <-].
  apply meta_loop_sibling_sound in Hloop as [_ Hone]; [|lia..].
  destruct Hone as (val & -> & Hlen); [lia|].
  exists val. by rewrite insert_empty.
Qed.

(** C3, against the code. The claim holds of [parallel-put.go] and fails
    in the sibling revision, whose loop writes the key of the meta-count
    itself at every round and draws 1024 letters whatever the meta-size.
    With [-meta-count 3 -meta-size 2] and one object, every upload of the
    sibling revision carries a single entry, under
    ["test-metadata-key-3"], of 1024 bytes, which is not the three entries
    of two bytes of the claim, and there is a run that makes that upload;
    every upload of [parallel-put.go] with the same flags carries the
    three entries of the claim. *)
Theorem sibling_metadata_single_entry :
  (forall p, reachable HumanReadable (sample_world "1" "1" 4 3 2) p ->
     Forall (fun input =>
               (exists val, Metadata input = {["test-metadata-key-3" := val]} /\
                            String.length val = 1024%nat) /\
               ~ metadata_as_claimed 3 2 (Metadata input))
            (uploads (trace p))) /\
  (exists p input,
     reachable HumanReadable (sample_world "1" "1" 4 3 2) p /\
     uploads (trace p) = [input] /\ Key input = "object1") /\
  (forall p, reachable RecordLine (sample_world "1" "1" 4 3 2) p ->
     Forall (fun input => metadata_as_claimed 3 2 (Metadata input))
            (uploads (trace p))).
Proof.
  split; [|split].
  - intros p Hp. apply reachable_uploads in Hp as [data Hp].
    eapply Forall_impl; [exact Hp|].
    intros input (name & fuel & cur & meta & cur' & Hmeta & ->). simpl in *.
    apply uploadBlob_meta_sibling_sound in Hmeta as (val & -> & Hlen);
      [|by split].
    split; [by exists val|].
    intros [Hsize _]. by rewrite map_size_singleton in Hsize.
  - eexists _, _. split; [|split].
    + eexists _, _, _, _. split; [reflexivity|].
      eapply rtc_l; [by eapply step_go|].
      eapply rtc_l.
      { eapply (step_upload_ok _ _ _ _ _ 0 "object1" 5); reflexivity. }
      apply rtc_refl.
    + reflexivity.
    + reflexivity.
  - intros p Hp. apply reachable_uploads in Hp as [data Hp].
    eapply Forall_impl; [exact Hp|].
    intros input (name & fuel & cur & meta & cur' & Hmeta & ->). simpl in *.
    eapply uploadBlob_meta_sound; [|exact Hmeta]. by split.
Qed.

(** ** Runs, from the setup on *)

Lemma main_setup_ready_inv (v : Variant) (w : World) (tr : list Event)
    (conc : Z) (names : list string) (data : list Byte.byte) :
  main_setup v w = (tr, Ready conc names data) ->
  Atoi (Getenv w "CONCURRENCY") = inl conc /\
  names = gen_objectNames (object_name v w) conc /\
  bytes_Repeat filler (objectSize w) = Ok data.
Proof.
  unfold main_setup. destruct (Atoi _) as [c|]; [|done].
  destruct (bytes_Repeat _ _) as [d|]; [|done]. by intros [= <- <- <- <-].
Qed.

Lemma run_names_invariant (v : Variant) (w : World) (tr : list Event)
    (conc : Z) (names : list string) (data : list Byte.byte) (p : Proc) :
  main_setup v w = (tr, Ready conc names data) ->
  rtc (step v w conc data) (launch tr names) p ->
  names_invariant names p.
Proof.
  intros Hsetup Hrun. apply (steps_names_invariant _ _ _ _ _ _ _ Hrun).
  pose proof (main_setup_launched v w) as Hl.
  pose proof (main_setup_uploads v w) as Hu.
  rewrite Hsetup in Hl, Hu. simpl in Hl, Hu.
  unfold names_invariant, launch. simpl. rewrite Hl, Hu. by repeat split.
Qed.

Lemma run_run_invariant (v : Variant) (w : World) (tr : list Event)
    (conc : Z) (names : list string) (data : list Byte.byte) (p : Proc) :
  main_setup v w = (tr, Ready conc names data) ->
  rtc (step v w conc data) (launch tr names) p ->
  run_invariant v w conc p.
Proof.
  intros Hsetup Hrun. apply (steps_invariant _ _ _ _ _ _ Hrun).
  destruct (main_setup_quiet v w) as [Hout Hup]. rewrite Hsetup in Hout, Hup.
  simpl in Hout, Hup. unfold run_invariant, launch. simpl.
  rewrite Hup. repeat split; (done || by left).
Qed.

Lemma ready_names (v : Variant) (w : World) (tr : list Event)
    (conc : Z) (names : list string) (data : list Byte.byte) :
  main_setup v w = (tr, Ready conc names data) ->
  NoDup names /\ length names = Z.to_nat conc.
Proof.
  intros (Hc & -> & _)%main_setup_ready_inv.
  pose proof (Atoi_in_range _ _ Hc) as [_ Hmax].
  rewrite gen_objectNames_spec by done. split.
  - apply (NoDup_fmap_2 _ (Inj0 := object_name_inj v w)), NoDup_seqZ.
  - by rewrite length_fmap, length_seqZ.
Qed.

Lemma submseteq_NoDup (l k : list string) : l ⊆+ k -> NoDup k -> NoDup l.
Proof.
  intros (k' & Hk)%submseteq_Permutation Hnd. rewrite Hk in Hnd.
  by apply NoDup_app in Hnd as [? _].
Qed.

Lemma sent_Bucket (v : Variant) (w : World) (data : list Byte.byte)
    (input : UploadInput) :
  sent v w data input -> Bucket input = Getenv w "BUCKET".
Proof. by intros (name & fuel & cur & meta & cur' & _ & ->). Qed.

Lemma running_le_length (ts : list Task) : running ts <= Z.of_nat (length ts).
Proof. induction ts as [|t ts IH]; simpl; [done|]. destruct (is_running t); lia. Qed.

(** The sample run is a run, of eight steps. *)
Lemma sample_run_steps :
  nsteps (step RecordLine (sample_world "2" "7" 4 1 2) 2
            [Byte.x61; Byte.x61; Byte.x61; Byte.x61]) 8
    (launch [EvAppend "object-7-1"; EvAppend "object-7-2"; EvRepeat 4]
       ["object-7-1"; "object-7-2"])
    sample_run_end.
Proof.
  eapply nsteps_l; [by eapply step_go|].
  eapply nsteps_l; [by eapply step_go|].
  eapply nsteps_l; [by eapply step_launched|].
  eapply nsteps_l.
  { eapply (step_upload_ok _ _ _ _ _ 1 "object-7-2" 2); reflexivity. }
  eapply nsteps_l.
  { eapply (step_upload_ok _ _ _ _ _ 0 "object-7-1" 2); reflexivity. }
  eapply nsteps_l; [by eapply step_wait|].
  eapply nsteps_l; [by eapply step_report|].
  eapply nsteps_l; [by eapply step_return|].
  apply nsteps_O.
Qed.

Lemma sample_run :
  main_setup RecordLine (sample_world "2" "7" 4 1 2)
  = ([EvAppend "object-7-1"; EvAppend "object-7-2"; EvRepeat 4],
     Ready 2 ["object-7-1"; "object-7-2"]
       [Byte.x61; Byte.x61; Byte.x61; Byte.x61]) /\
  rtc (step RecordLine (sample_world "2" "7" 4 1 2) 2
         [Byte.x61; Byte.x61; Byte.x61; Byte.x61])
    (launch [EvAppend "object-7-1"; EvAppend "object-7-2"; EvRepeat 4]
       ["object-7-1"; "object-7-2"])
    sample_run_end.
Proof.
  split; [reflexivity|]. eapply rtc_nsteps_2. apply sample_run_steps.
Qed.

(** ** What the uploads of a run are *)

(** X4. At every point of every run the uploads made so far are for
    object names of the run, no name twice, and each of them sends the
    payload of the run to the bucket of the environment. *)
Theorem uploads_are_for_distinct_objects (v : Variant) (w : World)
    (tr : list Event) (conc : Z) (names : list string)
    (data : list Byte.byte) (p : Proc) :
  main_setup v w = (tr, Ready conc names data) ->
  rtc (step v w conc data) (launch tr names) p ->
  Key <$> uploads (trace p) ⊆+ names /\
  NoDup (Key <$> uploads (trace p)) /\
  Forall (fun input => Body input = data /\ Bucket input = Getenv w "BUCKET")
    (uploads (trace p)).
Proof.
  intros Hsetup Hrun.
  destruct (run_names_invariant _ _ _ _ _ _ _ Hsetup Hrun)
    as (Hnames & _ & Hsub & _).
  assert (Key <$> uploads (trace p) ⊆+ names) as Hkeys.
  { etrans; [|etrans; [exact Hsub|]].
    - by apply submseteq_inserts_r.
    - rewrite <- Hnames. by apply submseteq_inserts_r. }
  split; [done|]. split.
  - eapply submseteq_NoDup; [exact Hkeys|]. by eapply ready_names.
  - destruct (reachable_uploads v w p) as [data' Hsent]; [by eexists _, _, _, _|].
    apply steps_trace in Hrun as (more & Htrace & Hmore).
    pose proof (main_setup_uploads v w) as Htr. rewrite Hsetup in Htr.
    simpl in Htr, Htrace. rewrite Htrace, uploads_app, Htr. simpl.
    eapply Forall_impl; [by apply uploads_run|].
    intros input Hin. split; [by eapply sent_Body|by eapply sent_Bucket].
Qed.

Lemma uploads_are_for_distinct_objects_witness :
  main_setup RecordLine (sample_world "2" "7" 4 1 2)
  = ([EvAppend "object-7-1"; EvAppend "object-7-2"; EvRepeat 4],
     Ready 2 ["object-7-1"; "object-7-2"]
       [Byte.x61; Byte.x61; Byte.x61; Byte.x61]) /\
  rtc (step RecordLine (sample_world "2" "7" 4 1 2) 2
         [Byte.x61; Byte.x61; Byte.x61; Byte.x61])
    (launch [EvAppend "object-7-1"; EvAppend "object-7-2"; EvRepeat 4]
       ["object-7-1"; "object-7-2"])
    sample_run_end /\
  Key <$> uploads (trace sample_run_end) ⊆+ ["object-7-1"; "object-7-2"] /\
  NoDup (Key <$> uploads (trace sample_run_end)) /\
  Forall (fun input =>
            Body input = [Byte.x61; Byte.x61; Byte.x61; Byte.x61] /\
            Bucket input = Getenv (sample_world "2" "7" 4 1 2) "BUCKET")
    (uploads (trace sample_run_end)).
Proof.
  destruct sample_run as [Hsetup Hrun].
  split; [exact Hsetup|]. split; [exact Hrun|].
  exact (uploads_are_for_distinct_objects _ _ _ _ _ _ _ Hsetup Hrun).
Defined.

(** X5. A run that ends with status 0 has uploaded every object name of
    the run exactly once: as many uploads as the concurrency, every one of
    them accepted by the object store, and the report on standard output. *)
Theorem clean_exit_uploads_every_object (v : Variant) (w : World)
    (tr : list Event) (conc : Z) (names : list string)
    (data : list Byte.byte) (p : Proc) :
  main_setup v w = (tr, Ready conc names data) ->
  rtc (step v w conc data) (launch tr names) p ->
  exited p = Some 0 ->
  Key <$> uploads (trace p) ≡ₚ names /\
  length (uploads (trace p)) = Z.to_nat conc /\
  Forall (fun r => r = None) (upload_results w (trace p)) /\
  stdout (trace p) = report v w conc.
Proof.
  intros Hsetup Hrun Hexit.
  destruct (run_names_invariant _ _ _ _ _ _ _ Hsetup Hrun)
    as (Hnames & Hlen & Hsub & Hdone).
  destruct (run_run_invariant _ _ _ _ _ _ _ Hsetup Hrun)
    as (Hwg & Hpc & Hz & Hfail).
  destruct (Hz Hexit) as [Hret Hnone]. rewrite Hret in Hpc, Hnames.
  destruct Hpc as [Hrunning Hout]. simpl in Hnames. rewrite app_nil_r in Hnames.
  rewrite Hnames in Hlen, Hsub.
  rewrite (done_count_all _ Hrunning Hnone), Hlen in Hdone.
  assert (Key <$> uploads (trace p) ≡ₚ names) as Hperm.
  { apply submseteq_length_Permutation.
    - etrans; [|exact Hsub]. by apply submseteq_inserts_r.
    - by rewrite length_fmap. }
  destruct (ready_names _ _ _ _ _ _ Hsetup) as [_ Hcount].
  split; [done|]. split.
  - by rewrite <- Hcount, <- Hperm, length_fmap.
  - split; [|done]. destruct Hfail as [Hfail|Hfail]; [done|congruence].
Qed.

Lemma clean_exit_uploads_every_object_witness :
  main_setup RecordLine (sample_world "2" "7" 4 1 2)
  = ([EvAppend "object-7-1"; EvAppend "object-7-2"; EvRepeat 4],
     Ready 2 ["object-7-1"; "object-7-2"]
       [Byte.x61; Byte.x61; Byte.x61; Byte.x61]) /\
  rtc (step RecordLine (sample_world "2" "7" 4 1 2) 2
         [Byte.x61; Byte.x61; Byte.x61; Byte.x61])
    (launch [EvAppend "object-7-1"; EvAppend "object-7-2"; EvRepeat 4]
       ["object-7-1"; "object-7-2"])
    sample_run_end /\
  exited sample_run_end = Some 0 /\
  Key <$> uploads (trace sample_run_end) ≡ₚ ["object-7-1"; "object-7-2"] /\
  length (uploads (trace sample_run_end)) = Z.to_nat 2 /\
  Forall (fun r => r = None)
    (upload_results (sample_world "2" "7" 4 1 2) (trace sample_run_end)) /\
  stdout (trace sample_run_end)
  = report RecordLine (sample_world "2" "7" 4 1 2) 2.
Proof.
  destruct sample_run as [Hsetup Hrun].
  split; [exact Hsetup|]. split; [exact Hrun|]. split; [reflexivity|].
  exact (clean_exit_uploads_every_object _ _ _ _ _ _ _ Hsetup Hrun eq_refl).
Defined.

(** ** The barrier of [parallelUploads] *)

(** X6. At every point of every run the counter of the [WaitGroup] is the
    number of goroutines whose upload has not returned: it is never
    negative (so [wg.Done()] never panics) and never above the number of
    object names. *)
Theorem waitgroup_counts_uploads_under_way (v : Variant) (w : World)
    (tr : list Event) (conc : Z) (names : list string)
    (data : list Byte.byte) (p : Proc) :
  main_setup v w = (tr, Ready conc names data) ->
  rtc (step v w conc data) (launch tr names) p ->
  wg p = running (tasks p) /\
  wg p = Z.of_nat (length (running_names (tasks p))) /\
  0 <= wg p <= Z.of_nat (length names).
Proof.
  intros Hsetup Hrun.
  destruct (run_names_invariant _ _ _ _ _ _ _ Hsetup Hrun)
    as (Hnames & Hlen & _).
  destruct (run_run_invariant _ _ _ _ _ _ _ Hsetup Hrun) as (Hwg & _).
  split; [done|]. split.
  - rewrite Hwg. clear. induction (tasks p) as [|[] ts IH]; simpl; lia.
  - rewrite Hwg. pose proof (running_nonneg (tasks p)).
    pose proof (running_le_length (tasks p)).
    rewrite <- Hnames, length_app. lia.
Qed.

Lemma waitgroup_counts_uploads_under_way_witness :
  main_setup RecordLine (sample_world "2" "7" 4 1 2)
  = ([EvAppend "object-7-1"; EvAppend "object-7-2"; EvRepeat 4],
     Ready 2 ["object-7-1"; "object-7-2"]
       [Byte.x61; Byte.x61; Byte.x61; Byte.x61]) /\
  rtc (step RecordLine (sample_world "2" "7" 4 1 2) 2
         [Byte.x61; Byte.x61; Byte.x61; Byte.x61])
    (launch [EvAppend "object-7-1"; EvAppend "object-7-2"; EvRepeat 4]
       ["object-7-1"; "object-7-2"])
    sample_run_end /\
  wg sample_run_end = running (tasks sample_run_end) /\
  wg sample_run_end = Z.of_nat (length (running_names (tasks sample_run_end))) /\
  0 <= wg sample_run_end <= Z.of_nat (length ["object-7-1"; "object-7-2"]).
Proof.
  destruct sample_run as [Hsetup Hrun].
  split; [exact Hsetup|]. split; [exact Hrun|].
  exact (waitgroup_counts_uploads_under_way _ _ _ _ _ _ _ Hsetup Hrun).
Defined.

(** X7. Nothing reaches standard output before [wg.Wait()] has returned:
    once a line is printed, a goroutine was launched for every object name
    and none of them is still uploading; and what is printed is the
    report, once. *)
Theorem report_waits_for_every_upload (v : Variant) (w : World)
    (tr : list Event) (conc : Z) (names : list string)
    (data : list Byte.byte) (p : Proc) :
  main_setup v w = (tr, Ready conc names data) ->
  rtc (step v w conc data) (launch tr names) p ->
  stdout (trace p) <> [] ->
  launched (trace p) = names /\
  length (tasks p) = length names /\
  running_names (tasks p) = [] /\
  stdout (trace p) = report v w conc.
Proof.
  intros Hsetup Hrun Hout.
  destruct (run_names_invariant _ _ _ _ _ _ _ Hsetup Hrun)
    as (Hnames & Hlen & _).
  destruct (run_run_invariant _ _ _ _ _ _ _ Hsetup Hrun) as (_ & Hpc & _).
  destruct (pc p); try done; destruct Hpc as [Hz Hs]; try done.
  simpl in Hnames. rewrite app_nil_r in Hnames.
  split; [done|]. split; [by rewrite Hlen, Hnames|]. split; [|done].
  clear -Hz. induction (tasks p) as [|t ts IH]; [done|].
  pose proof (running_nonneg ts). destruct t; simpl in *; try lia; apply IH; lia.
Qed.

Lemma report_waits_for_every_upload_witness :
  main_setup RecordLine (sample_world "2" "7" 4 1 2)
  = ([EvAppend "object-7-1"; EvAppend "object-7-2"; EvRepeat 4],
     Ready 2 ["object-7-1"; "object-7-2"]
       [Byte.x61; Byte.x61; Byte.x61; Byte.x61]) /\
  rtc (step RecordLine (sample_world "2" "7" 4 1 2) 2
         [Byte.x61; Byte.x61; Byte.x61; Byte.x61])
    (launch [EvAppend "object-7-1"; EvAppend "object-7-2"; EvRepeat 4]
       ["object-7-1"; "object-7-2"])
    sample_run_end /\
  stdout (trace sample_run_end) <> [] /\
  launched (trace sample_run_end) = ["object-7-1"; "object-7-2"] /\
  length (tasks sample_run_end) = length ["object-7-1"; "object-7-2"] /\
  running_names (tasks sample_run_end) = [] /\
  stdout (trace sample_run_end)
  = report RecordLine (sample_world "2" "7" 4 1 2) 2.
Proof.
  destruct sample_run as [Hsetup Hrun].
  assert (stdout (trace sample_run_end) <> []) as Hout by (vm_compute; discriminate).
  split; [exact Hsetup|]. split; [exact Hrun|]. split; [exact Hout|].
  exact (report_waits_for_every_upload _ _ _ _ _ _ _ Hsetup Hrun Hout).
Defined.

(** ** No deadlock *)

Lemma running_task (ts : list Task) :
  0 < running ts -> exists i name, ts !! i = Some (TRun name).
Proof.
  induction ts as [|t ts IH]; simpl; [lia|].
  destruct t as [name| |msg]; simpl.
  - intros _. by exists 0%nat, name.
  - intros H. destruct IH as (i & name & Hi); [lia|]. by exists (S i), name.
  - intros H. destruct IH as (i & name & Hi); [lia|]. by exists (S i), name.
Qed.

Lemma panicking_task (ts : list Task) :
  forallb (fun t => negb (is_panicking t)) ts = false ->
  exists i msg, ts !! i = Some (TPanicking msg).
Proof.
  induction ts as [|t ts IH]; simpl; [done|].
  destruct t as [name| |msg]; simpl.
  - intros H. destruct (IH H) as (i & msg & Hi). by exists (S i), msg.
  - intros H. destruct (IH H) as (i & msg & Hi). by exists (S i), msg.
  - intros _. by exists 0%nat, msg.
Qed.

(** A process whose counter tells the uploads under way, and that has not
    ended, can take a step. *)
Lemma counted_can_step (v : Variant) (w : World) (conc : Z)
    (data : list Byte.byte) (p : Proc) :
  wg p = running (tasks p) ->
  metaCount w < GoInt.maxInt ->
  exited p = None ->
  exists p', step v w conc data p p'.
Proof.
  intros Hwg Hm Hexit.
  destruct (pc p) as [[|name rest]| | |] eqn:Hpc.
  - eexists. by apply step_launched.
  - eexists. by eapply step_go.
  - destruct (Z.eq_dec (wg p) 0) as [Hzero|Hne].
    { eexists. by apply step_wait. }
    pose proof (running_nonneg (tasks p)).
    destruct (running_task (tasks p)) as (i & name & Hi); [lia|].
    destruct (uploadBlob_metadata_returns v w (cursor p) Hm) as (fuel & r & Hr).
    destruct r as [[meta cur]|msg].
    + destruct (Upload w (upload_input w data name meta)) as [err|] eqn:Hup.
      * eexists. by eapply step_upload_err.
      * eexists. by eapply step_upload_ok.
    + eexists. by eapply step_upload_panic.
  - eexists. by apply step_report.
  - destruct (forallb (fun t => negb (is_panicking t)) (tasks p)) eqn:Hnone.
    + eexists. by apply step_return.
    + destruct (panicking_task _ Hnone) as (i & msg & Hi).
      eexists. by eapply step_abort.
Qed.

(** X8. A run is never stuck: as long as the process has not ended, and
    for a meta-count below the largest [int], some goroutine or [main] can
    take a step. In particular [wg.Wait()] cannot block for ever: when the
    counter is not zero an upload is still under way. *)
Theorem run_is_never_stuck (v : Variant) (w : World)
    (tr : list Event) (conc : Z) (names : list string)
    (data : list Byte.byte) (p : Proc) :
  main_setup v w = (tr, Ready conc names data) ->
  rtc (step v w conc data) (launch tr names) p ->
  metaCount w < GoInt.maxInt ->
  exited p = None ->
  exists p', step v w conc data p p'.
Proof.
  intros Hsetup Hrun Hm Hexit.
  destruct (run_run_invariant _ _ _ _ _ _ _ Hsetup Hrun) as (Hwg & _).
  by apply counted_can_step.
Qed.

Lemma run_is_never_stuck_witness :
  main_setup RecordLine (sample_world "2" "7" 4 1 2)
  = ([EvAppend "object-7-1"; EvAppend "object-7-2"; EvRepeat 4],
     Ready 2 ["object-7-1"; "object-7-2"]
       [Byte.x61; Byte.x61; Byte.x61; Byte.x61]) /\
  rtc (step RecordLine (sample_world "2" "7" 4 1 2) 2
         [Byte.x61; Byte.x61; Byte.x61; Byte.x61])
    (launch [EvAppend "object-7-1"; EvAppend "object-7-2"; EvRepeat 4]
       ["object-7-1"; "object-7-2"])
    (launch [EvAppend "object-7-1"; EvAppend "object-7-2"; EvRepeat 4]
       ["object-7-1"; "object-7-2"]) /\
  metaCount (sample_world "2" "7" 4 1 2) < GoInt.maxInt /\
  exited (launch [EvAppend "object-7-1"; EvAppend "object-7-2"; EvRepeat 4]
            ["object-7-1"; "object-7-2"]) = None /\
  exists p',
    step RecordLine (sample_world "2" "7" 4 1 2) 2
      [Byte.x61; Byte.x61; Byte.x61; Byte.x61]
      (launch [EvAppend "object-7-1"; EvAppend "object-7-2"; EvRepeat 4]
         ["object-7-1"; "object-7-2"]) p'.
Proof.
  destruct sample_run as [Hsetup _].
  assert (metaCount (sample_world "2" "7" 4 1 2) < GoInt.maxInt) as Hm
    by reflexivity.
  split; [exact Hsetup|]. split; [apply rtc_refl|]. split; [exact Hm|].
  split; [reflexivity|].
  exact (run_is_never_stuck _ _ _ _ _ _ _ Hsetup (rtc_refl _ _) Hm eq_refl).
Defined.

(** ** Every run ends *)

Lemma step_steps_left (v : Variant) (w : World) (conc : Z)
    (data : list Byte.byte) (p p' : Proc) :
  step v w conc data p p' -> steps_left p = steps_left p' + 1.
Proof.
  destruct 1 as
    [p name rest Hrun Hp | p Hrun Hp
    | p i name fuel meta cur Hrun Hi Hmeta Hup
    | p i name fuel meta cur err Hrun Hi Hmeta Hup
    | p i name fuel msg Hrun Hi Hmeta
    | p i msg Hrun Hi | p Hrun Hp Hzero | p Hrun Hp | p Hrun Hp Hnone];
    unfold steps_left; simpl; rewrite Hrun, ?Hp;
    rewrite ?running_app, ?(running_insert _ _ _ _ Hi) by done;
    simpl length; lia.
Qed.

(** Each step brings a run one step nearer to its end. *)
Lemma steps_left_run (v : Variant) (w : World) (conc : Z)
    (data : list Byte.byte) (tr : list Event) (names : list string)
    (n : nat) (p : Proc) :
  nsteps (step v w conc data) n (launch tr names) p ->
  Z.of_nat n + steps_left p = 2 * Z.of_nat (length names) + 4.
Proof.
  intros Hrun.
  assert (Z.of_nat n + steps_left p = steps_left (launch tr names)) as Hleft.
  { induction Hrun as [p|n p q r Hpq _ IH]; [lia|].
    rewrite (step_steps_left _ _ _ _ _ _ Hpq). lia. }
  unfold steps_left at 2 in Hleft. simpl in Hleft. lia.
Qed.

Lemma steps_left_nonneg (p : Proc) : 0 <= steps_left p.
Proof.
  unfold steps_left. pose proof (running_nonneg (tasks p)).
  destruct (exited p), (pc p); lia.
Qed.

(** From every point of a run the process can go on to its end. *)
Lemma run_reaches_end (v : Variant) (w : World)
    (tr : list Event) (conc : Z) (names : list string)
    (data : list Byte.byte) (p : Proc) :
  main_setup v w = (tr, Ready conc names data) ->
  metaCount w < GoInt.maxInt ->
  rtc (step v w conc data) (launch tr names) p ->
  exists m q, nsteps (step v w conc data) m p q /\ is_Some (exited q).
Proof.
  intros Hsetup Hm.
  remember (Z.to_nat (steps_left p)) as k eqn:Hk. revert p Hk.
  induction k as [|k IH]; intros p Hk Hrun.
  - destruct (exited p) as [status|] eqn:Hexit.
    + exists 0%nat, p. split; [apply nsteps_O|by rewrite Hexit].
    + destruct (run_run_invariant _ _ _ _ _ _ _ Hsetup Hrun) as (Hwg & _).
      destruct (counted_can_step v w conc data p Hwg Hm Hexit) as [p' Hstep].
      pose proof (step_steps_left _ _ _ _ _ _ Hstep).
      pose proof (steps_left_nonneg p'). lia.
  - destruct (exited p) as [status|] eqn:Hexit.
    + exists 0%nat, p. split; [apply nsteps_O|by rewrite Hexit].
    + destruct (run_run_invariant _ _ _ _ _ _ _ Hsetup Hrun) as (Hwg & _).
      destruct (counted_can_step v w conc data p Hwg Hm Hexit) as [p' Hstep].
      pose proof (step_steps_left _ _ _ _ _ _ Hstep) as Hleft.
      destruct (IH p') as (m & q & Hq & Hend); [lia|by eapply rtc_r|].
      exists (S m), q. split; [by eapply nsteps_l|done].
Qed.

(** X9. Every run ends, for a meta-count below the largest [int] and an
    object store that answers every upload: a run over the object names
    of the setup has at most [2 n + 4] steps for [n] names (one launch and
    one upload for each name, four steps of [main]); a process that cannot
    take a step has ended; and from every point of a run the process can
    go on, within that bound, to a state where it has ended. *)
Theorem every_run_ends (v : Variant) (w : World)
    (tr : list Event) (conc : Z) (names : list string)
    (data : list Byte.byte) (n : nat) (p : Proc) :
  main_setup v w = (tr, Ready conc names data) ->
  metaCount w < GoInt.maxInt ->
  nsteps (step v w conc data) n (launch tr names) p ->
  (n <= 2 * length names + 4)%nat /\
  ((forall p', ~ step v w conc data p p') -> is_Some (exited p)) /\
  (exists m q,
     nsteps (step v w conc data) m p q /\ is_Some (exited q) /\
     (n + m <= 2 * length names + 4)%nat).
Proof.
  intros Hsetup Hm Hrun.
  pose proof (steps_left_run _ _ _ _ _ _ _ _ Hrun) as Hleft.
  pose proof (steps_left_nonneg p) as Hpos.
  assert (rtc (step v w conc data) (launch tr names) p) as Hrtc
    by (by eapply rtc_nsteps_2).
  split; [lia|]. split.
  - intros Hstuck. destruct (exited p) as [status|] eqn:Hexit; [done|].
    destruct (run_run_invariant _ _ _ _ _ _ _ Hsetup Hrtc) as (Hwg & _).
    destruct (counted_can_step v w conc data p Hwg Hm Hexit) as [p' Hstep].
    by destruct (Hstuck p').
  - destruct (run_reaches_end _ _ _ _ _ _ _ Hsetup Hm Hrtc)
      as (m & q & Hq & Hend).
    exists m, q. split; [done|]. split; [done|].
    pose proof (steps_left_run _ _ _ _ _ _ _ _ (nsteps_trans _ _ _ _ _ Hrun Hq))
      as Hall.
    pose proof (steps_left_nonneg q). lia.
Qed.

Lemma every_run_ends_witness :
  main_setup RecordLine (sample_world "2" "7" 4 1 2)
  = ([EvAppend "object-7-1"; EvAppend "object-7-2"; EvRepeat 4],
     Ready 2 ["object-7-1"; "object-7-2"]
       [Byte.x61; Byte.x61; Byte.x61; Byte.x61]) /\
  metaCount (sample_world "2" "7" 4 1 2) < GoInt.maxInt /\
  nsteps (step RecordLine (sample_world "2" "7" 4 1 2) 2
            [Byte.x61; Byte.x61; Byte.x61; Byte.x61]) 8
    (launch [EvAppend "object-7-1"; EvAppend "object-7-2"; EvRepeat 4]
       ["object-7-1"; "object-7-2"])
    sample_run_end /\
  (8 <= 2 * length ["object-7-1"; "object-7-2"] + 4)%nat /\
  ((forall p', ~ step RecordLine (sample_world "2" "7" 4 1 2) 2
                   [Byte.x61; Byte.x61; Byte.x61; Byte.x61] sample_run_end p') ->
   is_Some (exited sample_run_end)) /\
  (exists m q,
     nsteps (step RecordLine (sample_world "2" "7" 4 1 2) 2
               [Byte.x61; Byte.x61; Byte.x61; Byte.x61]) m sample_run_end q /\
     is_Some (exited q) /\
     (8 + m <= 2 * length ["object-7-1"; "object-7-2"] + 4)%nat).
Proof.
  destruct sample_run as [Hsetup _].
  assert (metaCount (sample_world "2" "7" 4 1 2) < GoInt.maxInt) as Hm
    by reflexivity.
  split; [exact Hsetup|]. split; [exact Hm|]. split; [exact sample_run_steps|].
  exact (every_run_ends _ _ _ _ _ _ _ _ Hsetup Hm sample_run_steps).
Defined.

(** ** When the object store accepts every upload *)








(** ** Object names across nodes *)

(** X11. Two runs of [parallel-put.go] whose [NODE] values differ never
    make the same object name, whatever their concurrencies and even when
    a [NODE] value itself holds dashes. *)
Theorem node_names_never_collide (w1 w2 : World) (c1 c2 : Z) (name : string) :
  Atoi (Getenv w1 "CONCURRENCY") = inl c1 ->
  Atoi (Getenv w2 "CONCURRENCY") = inl c2 ->
  Getenv w1 "NODE" <> Getenv w2 "NODE" ->
  name ∈ appended (fst (main_setup RecordLine w1)) ->
  name ∉ appended (fst (main_setup RecordLine w2)).
Proof.
  intros Hc1 Hc2 Hnode.
  rewrite (main_setup_appended _ _ _ Hc1), (main_setup_appended _ _ _ Hc2).
  pose proof (Atoi_in_range _ _ Hc1) as [_ Hmax1].
  pose proof (Atoi_in_range _ _ Hc2) as [_ Hmax2].
  rewrite !gen_objectNames_spec by done.
  intros (i & -> & Hi%elem_of_seqZ)%list_elem_of_fmap
         (j & Heq & Hj%elem_of_seqZ)%list_elem_of_fmap.
  simpl in Heq. apply Sprintf_object_node_inj2 in Heq as [Heq _]; [done|lia..].
Qed.

Lemma node_names_never_collide_witness :
  Atoi (Getenv (sample_world "2" "7" 4 1 2) "CONCURRENCY") = inl 2 /\
  Atoi (Getenv (sample_world "3" "7-1" 4 1 2) "CONCURRENCY") = inl 3 /\
  Getenv (sample_world "2" "7" 4 1 2) "NODE"
  <> Getenv (sample_world "3" "7-1" 4 1 2) "NODE" /\
  "object-7-1" ∈ appended (fst (main_setup RecordLine (sample_world "2" "7" 4 1 2))) /\
  "object-7-1" ∉ appended (fst (main_setup RecordLine (sample_world "3" "7-1" 4 1 2))).
Proof.
  assert (Getenv (sample_world "2" "7" 4 1 2) "NODE"
          <> Getenv (sample_world "3" "7-1" 4 1 2) "NODE") as Hnode
    by (vm_compute; discriminate).
  assert ("object-7-1"
          ∈ appended (fst (main_setup RecordLine (sample_world "2" "7" 4 1 2))))
    as Hin by (vm_compute; apply list_elem_of_here).
  split; [reflexivity|]. split; [reflexivity|]. split; [exact Hnode|].
  split; [exact Hin|].
  exact (node_names_never_collide (sample_world "2" "7" 4 1 2)
           (sample_world "3" "7-1" 4 1 2) 2 3 "object-7-1"
           eq_refl eq_refl Hnode Hin).
Defined.

(** X12. Raising the concurrency only adds object names: the names of a
    run are the first names of any run of the same revision and node with
    a concurrency at least as large, so that a larger run names every
    object of a smaller one. *)
Theorem object_names_grow (v : Variant) (w : World) (c c' : Z) :
  c <= c' -> c' <= GoInt.maxInt ->
  gen_objectNames (object_name v w) c
  = take (Z.to_nat c) (gen_objectNames (object_name v w) c').
Proof.
  intros Hle Hmax. rewrite !gen_objectNames_spec by lia.
  rewrite <- fmap_take. f_equal.
  destruct (Z.le_gt_cases c 0) as [Hneg|Hpos].
  - rewrite seqZ_nil by done. by replace (Z.to_nat c) with 0%nat by lia.
  - replace c' with (c + (c' - c)) by lia.
    rewrite seqZ_app by lia.
    rewrite take_app_length'; [done|]. by rewrite length_seqZ.
Qed.

Lemma object_names_grow_witness :
  2 <= 3 /\ 3 <= GoInt.maxInt /\
  gen_objectNames (object_name RecordLine (sample_world "2" "7" 4 1 2)) 2
  = take (Z.to_nat 2)
      (gen_objectNames (object_name RecordLine (sample_world "2" "7" 4 1 2)) 3).
Proof.
  assert (3 <= GoInt.maxInt) as Hmax by discriminate.
  split; [lia|]. split; [exact Hmax|].
  apply (object_names_grow RecordLine (sample_world "2" "7" 4 1 2) 2 3);
    [lia|exact Hmax].
Defined.

(** ** The fields of the record line *)

Lemma field_byte_count (s : string) :
  all_chars field_byte s = true -> count_char ";" s = 0%nat.
Proof. apply all_chars_count. done. Qed.

Lemma digit_or_sign_field_byte (a : ascii) :
  is_digit a || Ascii.eqb a "-" || Ascii.eqb a "+" = true -> field_byte a = true.
Proof. destruct a as [[] [] [] [] [] [] [] []]; vm_compute; done. Qed.

Lemma fmt_d_field (z : Z) : all_chars field_byte (fmt_d z) = true.
Proof.
  eapply all_chars_impl; [|apply fmt_d_chars].
  intros a Ha. apply digit_or_sign_field_byte. by rewrite Ha.
Qed.

Lemma repeat_field (a : ascii) (n : nat) :
  field_byte a = true ->
  all_chars field_byte (string_of_list_ascii (repeat a n)) = true.
Proof. intros Ha. induction n as [|n IH]; simpl; [done|]. by rewrite Ha, IH. Qed.

Lemma appendInt_field (x : Z) (width : nat) :
  all_chars field_byte (appendInt x width) = true.
Proof.
  unfold appendInt, zeros. rewrite !all_chars_app, fmt_d_field, repeat_field by done.
  by destruct (x <? 0).
Qed.

Lemma fmt_f_field (width digits : nat) (x : spec_float) :
  all_chars field_byte (fmt_f width digits x) = true.
Proof.
  assert (forall (s : bool) (n : Z),
    all_chars field_byte
      ((if s then "-" else "") +:+ fmt_d (n / 10 ^ Z.of_nat digits)
       +:+ (if digits is O then ""
            else "." +:+ appendInt (n mod 10 ^ Z.of_nat digits) digits))
    = true) as Hfixed.
  { intros s n. rewrite !all_chars_app, fmt_d_field.
    destruct s, digits; rewrite ?all_chars_app, ?appendInt_field; done. }
  unfold fmt_f, pad_left. rewrite all_chars_app, repeat_field by done.
  destruct x as [s|[]| |s m e]; simpl; first [apply Hfixed|done].
Qed.

Lemma digit_char_field (v : Z) : field_byte (digit_char (v mod 10)) = true.
Proof.
  pose proof (Z.mod_pos_bound v 10 ltac:(lia)) as Hd.
  assert (v mod 10 = 0 \/ v mod 10 = 1 \/ v mod 10 = 2 \/ v mod 10 = 3
          \/ v mod 10 = 4 \/ v mod 10 = 5 \/ v mod 10 = 6 \/ v mod 10 = 7
          \/ v mod 10 = 8 \/ v mod 10 = 9) as H by lia.
  repeat (destruct H as [H|H]; [by rewrite H|]). by rewrite H.
Qed.

Lemma fmtFrac_field (prec : nat) (v : Z) (print : bool) (acc : string) :
  all_chars field_byte acc = true ->
  all_chars field_byte (fst (fmtFrac prec v print acc)) = true.
Proof.
  revert v print acc. induction prec as [|prec IH]; intros v print acc Hacc.
  - simpl. by destruct print.
  - simpl. apply IH.
    destruct (print || negb (v mod 10 =? 0)); [|done].
    simpl. by rewrite digit_char_field.
Qed.

Lemma Duration_String_field (d : Z) :
  all_chars field_byte (Duration_String d) = true.
Proof.
  unfold Duration_String.
  pose proof (fmtFrac_field 3 (Z.abs d) false "" eq_refl) as H3.
  pose proof (fmtFrac_field 6 (Z.abs d) false "" eq_refl) as H6.
  pose proof (fmtFrac_field 9 (Z.abs d) false "" eq_refl) as H9.
  destruct (fmtFrac 3 (Z.abs d) false "") as [f3 v3].
  destruct (fmtFrac 6 (Z.abs d) false "") as [f6 v6].
  destruct (fmtFrac 9 (Z.abs d) false "") as [f9 v9].
  simpl in H3, H6, H9.
  repeat match goal with
         | |- context [if ?b then _ else _] => destruct b
         end;
    rewrite ?all_chars_app, ?fmt_d_field, ?H3, ?H6, ?H9; done.
Qed.

Lemma Time_Format_field (t : Time) : all_chars field_byte (Time_Format t) = true.
Proof.
  unfold Time_Format.
  destruct (civil_from_days _) as [[year month] day].
  rewrite !all_chars_app, !appendInt_field. done.
Qed.

Lemma digit_of_digit (a : ascii) (d : Z) : digit_of a = Some d -> is_digit a = true.
Proof.
  unfold digit_of, is_digit.
  destruct a as [[] [] [] [] [] [] [] []]; vm_compute; congruence.
Qed.

Lemma parse_digits_digits (s : string) (acc n : Z) :
  parse_digits s acc = inl n -> all_chars is_digit s = true.
Proof.
  revert acc. induction s as [|a s IH]; intros acc; simpl; [done|].
  destruct (digit_of a) as [d|] eqn:Hd; [|done].
  destruct (2 ^ 64 - 1 <? acc * 10 + d); [done|].
  intros H%IH. by rewrite (digit_of_digit _ _ Hd), H.
Qed.

(** What [strconv.Atoi] accepts is made of digits after an optional sign. *)
Lemma Atoi_field (s : string) (c : Z) :
  Atoi s = inl c -> all_chars field_byte s = true.
Proof.
  destruct s as [|a rest]; [done|]. unfold Atoi.
  destruct (Ascii.eqb a "-" || Ascii.eqb a "+") eqn:Hsign.
  - destruct rest as [|b rest]; [done|].
    destruct (parse_digits (String b rest) 0) as [un|] eqn:Hp; [|done].
    intros _. apply parse_digits_digits in Hp.
    change (field_byte a && all_chars field_byte (String b rest) = true).
    rewrite (digit_or_sign_field_byte a).
    + eapply all_chars_impl; [|exact Hp].
      intros x Hx. apply digit_or_sign_field_byte. by rewrite Hx.
    + apply orb_true_iff in Hsign as [->| ->]; by rewrite ?orb_true_r.
  - destruct (parse_digits (String a rest) 0) as [un|] eqn:Hp; [|done].
    intros _. apply parse_digits_digits in Hp.
    eapply all_chars_impl; [|exact Hp].
    intros x Hx. apply digit_or_sign_field_byte. by rewrite Hx.
Qed.

(** X13. The record line of [parallel-put.go] holds ten separators of its
    own: whenever [CONCURRENCY] was accepted, the line that is printed has
    exactly ten semicolons more than the [NODE] value, so that it splits
    into eleven fields when [NODE] holds no semicolon, whatever the flags,
    the clock and the statistics (infinities and NaN included). *)
Theorem record_line_has_eleven_fields (w : World) (conc : Z) :
  Atoi (Getenv w "CONCURRENCY") = inl conc ->
  exists line : string,
    report RecordLine w conc = [line] /\
    count_char ";" line = (10 + count_char ";" (Getenv w "NODE"))%nat.
Proof.
  intros Hconc%Atoi_field%field_byte_count. eexists. split; [reflexivity|].
  unfold report_fields. cbn [String.concat].
  rewrite !count_char_app, Hconc.
  rewrite !(field_byte_count _ (fmt_d_field _)).
  rewrite (field_byte_count _ (Duration_String_field _)).
  rewrite !(field_byte_count _ (fmt_f_field _ _ _)).
  rewrite !(field_byte_count _ (Time_Format_field _)).
  change (count_char ";" "PUT") with 0%nat.
  change (count_char ";" ";") with 1%nat.
  change (count_char ";" newline) with 0%nat.
  lia.
Qed.

Lemma record_line_has_eleven_fields_witness :
  Atoi (Getenv (sample_world "2" "7" 4 1 2) "CONCURRENCY") = inl 2 /\
  exists line : string,
    report RecordLine (sample_world "2" "7" 4 1 2) 2 = [line] /\
    count_char ";" line
    = (10 + count_char ";" (Getenv (sample_world "2" "7" 4 1 2) "NODE"))%nat.
Proof.
  split; [reflexivity|].
  exact (record_line_has_eleven_fields (sample_world "2" "7" 4 1 2) 2 eq_refl).
Defined.

(** ** The statistics of a run that uploads *)

Lemma of_int_zero : F64.of_int 0 = S754_zero false.
Proof. reflexivity. Qed.

Lemma seconds_zero : seconds 0 = S754_zero false.
Proof. reflexivity. Qed.

(** A count that is not zero over an elapsed time that is not zero: the
    quotient is a normal number, and so is the quotient divided by 1024
    twice. *)
Lemma quotient_normal (t elapsed : Z) :
  t <> 0 -> GoInt.in_range t -> elapsed <> 0 -> GoInt.in_range elapsed ->
  exists m e,
    F64.div (F64.of_int t) (seconds elapsed)
    = S754_finite (xorb (t <? 0) (elapsed <? 0)) m e /\
    Z.pos (digits2_pos m) = 53 /\ -89 <= e <= 43.
Proof.
  intros Ht Hrt He Hre.
  destruct (of_int_normal t Ht Hrt) as (m1 & e1 & -> & Hd1 & He1).
  destruct (seconds_normal elapsed He Hre) as (m2 & e2 & -> & Hd2 & He2).
  destruct (div_normal (t <? 0) (elapsed <? 0) m1 m2 e1 e2)
    as (m & e & -> & Hd & Hbound); [done|done|lia|].
  exists m, e. split; [done|]. split; [done|lia].
Qed.

(** X14. A run that uploads and takes time reports numbers: when the
    concurrency and the elapsed time are not zero, the throughput is a
    normal binary64 number (not zero, not subnormal, not an infinity, not
    NaN) whose sign is that of the concurrency over the elapsed time, and
    so is the bandwidth unless the 64-bit product of concurrency and size
    is zero, its sign being that of the product. *)
Theorem statistics_are_normal_numbers (conc size elapsed : Z) :
  conc <> 0 -> GoInt.in_range conc ->
  elapsed <> 0 -> GoInt.in_range elapsed ->
  (exists m e,
     speed conc (seconds elapsed)
     = S754_finite (xorb (conc <? 0) (elapsed <? 0)) m e /\
     F64.is_normal (speed conc (seconds elapsed)) = true) /\
  (totalSize conc size <> 0 ->
   exists m e,
     bandwidth conc size (seconds elapsed)
     = S754_finite (xorb (totalSize conc size <? 0) (elapsed <? 0)) m e /\
     F64.is_normal (bandwidth conc size (seconds elapsed)) = true).
Proof.
  intros Hc Hrc He Hre. split.
  - destruct (quotient_normal conc elapsed Hc Hrc He Hre)
      as (m & e & Hq & Hd & Hbound).
    exists m, e. unfold speed. rewrite Hq. split; [done|].
    unfold F64.is_normal, F64.prec, F64.emax. rewrite Hd.
    apply andb_true_intro. split; [done|]. apply Z.leb_le. lia.
  - intros Ht.
    assert (GoInt.in_range (totalSize conc size)) as Hrt.
    { unfold totalSize, GoInt.mul, GoInt.wrap, GoInt.in_range,
        GoInt.minInt, GoInt.maxInt.
      pose proof (Z.mod_pos_bound (conc * size + 2 ^ 63) (2 ^ 64) ltac:(lia)).
      lia. }
    destruct (quotient_normal (totalSize conc size) elapsed Ht Hrt He Hre)
      as (m & e & Hq & Hd & Hbound).
    exists m, (e - 10 - 10). unfold bandwidth. rewrite Hq, of_int_1024.
    rewrite !div_pow2_exact by (done || lia). split; [done|].
    unfold F64.is_normal, F64.prec, F64.emax. rewrite Hd.
    apply andb_true_intro. split; [done|]. apply Z.leb_le. lia.
Qed.

Lemma statistics_are_normal_numbers_witness :
  2 <> 0 /\ GoInt.in_range 2 /\ 2000000000 <> 0 /\ GoInt.in_range 2000000000 /\
  (exists m e,
     speed 2 (seconds 2000000000)
     = S754_finite (xorb (2 <? 0) (2000000000 <? 0)) m e /\
     F64.is_normal (speed 2 (seconds 2000000000)) = true) /\
  (totalSize 2 4 <> 0 ->
   exists m e,
     bandwidth 2 4 (seconds 2000000000)
     = S754_finite (xorb (totalSize 2 4 <? 0) (2000000000 <? 0)) m e /\
     F64.is_normal (bandwidth 2 4 (seconds 2000000000)) = true).
Proof.
  assert (GoInt.in_range 2) as H2 by (vm_compute; split; discriminate).
  assert (GoInt.in_range 2000000000) as He by (vm_compute; split; discriminate).
  split; [lia|]. split; [exact H2|]. split; [lia|]. split; [exact He|].
  apply (statistics_are_normal_numbers 2 4 2000000000); [lia|exact H2|lia|exact He].
Defined.

(** X15. No division of [main] can fail: when no time has elapsed and the
    concurrency is not zero, the throughput is an infinity with the sign of
    the concurrency, printed as [+Inf] or [-Inf], and the bandwidth is an
    infinity with the sign of the 64-bit product of concurrency and size,
    or NaN when that product is zero. *)
Theorem statistics_without_elapsed_time (conc size : Z) :
  conc <> 0 -> GoInt.in_range conc ->
  speed conc (seconds 0) = S754_infinity (conc <? 0) /\
  fmt_f 0 6 (speed conc (seconds 0)) = (if conc <? 0 then "-Inf" else "+Inf") /\
  bandwidth conc size (seconds 0)
  = (if totalSize conc size =? 0 then S754_nan
     else S754_infinity (totalSize conc size <? 0)).
Proof.
  intros Hc Hrc.
  assert (speed conc (seconds 0) = S754_infinity (conc <? 0)) as Hspeed.
  { unfold speed. rewrite seconds_zero.
    destruct (of_int_normal conc Hc Hrc) as (m & e & -> & _).
    by destruct (conc <? 0). }
  split; [exact Hspeed|]. split.
  { rewrite Hspeed. by destruct (conc <? 0). }
  unfold bandwidth. rewrite seconds_zero.
  destruct (Z.eqb_spec (totalSize conc size) 0) as [->|Ht]; [done|].
  assert (GoInt.in_range (totalSize conc size)) as Hrt.
  { unfold totalSize, GoInt.mul, GoInt.wrap, GoInt.in_range,
      GoInt.minInt, GoInt.maxInt.
    pose proof (Z.mod_pos_bound (conc * size + 2 ^ 63) (2 ^ 64) ltac:(lia)).
    lia. }
  destruct (of_int_normal _ Ht Hrt) as (m & e & -> & _).
  by destruct (totalSize conc size <? 0).
Qed.

Lemma statistics_without_elapsed_time_witness :
  2 <> 0 /\ GoInt.in_range 2 /\
  speed 2 (seconds 0) = S754_infinity (2 <? 0) /\
  fmt_f 0 6 (speed 2 (seconds 0)) = (if 2 <? 0 then "-Inf" else "+Inf") /\
  bandwidth 2 0 (seconds 0)
  = (if totalSize 2 0 =? 0 then S754_nan
     else S754_infinity (totalSize 2 0 <? 0)).
Proof.
  assert (GoInt.in_range 2) as H2 by (vm_compute; split; discriminate).
  split; [lia|]. split; [exact H2|].
  apply (statistics_without_elapsed_time 2 0); [lia|exact H2].
Defined.
